(** * eth_top_monitor: top-100 ETH holders monitor

    A shallow embedding of [eth_top_monitor.py] and the properties of its
    acquisition, diffing, reporting and persistence code.

    Conventions of the embedding:
    - a Python [str] is a Rocq [string]; every byte below 128 is the ASCII
      character it denotes, and the characters the program itself writes
      outside ASCII (arrows, emoji, the dash) are their UTF-8 bytes. Python
      lengths and slices count characters, so [py_len] and [py_chunks] count
      UTF-8 sequences, not bytes. [lower] and [isdigit] act on ASCII only;
    - a Python [int] is a [Z];
    - a Python [float] is a value of an abstract type; the conversions
      [float(...)] and [str(...)] of the interpreter are the operations of
      the class [PyFloat];
    - a dict used as a map from addresses is a [gmap string _];
    - an exception is a value of [exn]; code that may raise lives in the
      monad [M], which threads the observable state [World];
    - the network, the file system's faults and the clock are inputs. *)

From Stdlib Require Import ZArith String Ascii List Permutation Sorted DecimalString.
From stdpp Require Import base tactics option list gmap strings pretty.

Local Open Scope Z_scope.
Local Open Scope string_scope.

(** ** Python strings *)

Module PyStr.

Definition code (c : ascii) : N := N_of_ascii c.

(** [ch.isdigit()] on ASCII. *)
Definition isdigit (c : ascii) : bool :=
  ((48 <=? code c) && (code c <=? 57))%N.

(** [ch.lower()] on ASCII. *)
Definition lower_char (c : ascii) : ascii :=
  if ((65 <=? code c) && (code c <=? 90))%N
  then ascii_of_N (code c + 32) else c.

(** [s.lower()]. *)
Fixpoint lower (s : string) : string :=
  match s with
  | EmptyString => EmptyString
  | String c s' => String (lower_char c) (lower s')
  end.

(** The characters [str.strip()] and [str.split()] treat as white space. *)
Definition isspace (c : ascii) : bool :=
  ((code c =? 32) || ((9 <=? code c) && (code c <=? 13))
   || ((28 <=? code c) && (code c <=? 31)))%N.

Fixpoint filter_chars (p : ascii -> bool) (s : string) : string :=
  match s with
  | EmptyString => EmptyString
  | String c s' => if p c then String c (filter_chars p s') else filter_chars p s'
  end.

(** [sub in s]. *)
Fixpoint contains (sub s : string) : bool :=
  match s with
  | EmptyString => String.prefix sub EmptyString
  | String _ s' => String.prefix sub s || contains sub s'
  end.

(** [s.replace(old, new)] for a non-empty [old]: left to right, without
    overlap. [skip] counts the characters of a match still to be dropped. *)
Fixpoint replace_from (old new : string) (skip : nat) (s : string) : string :=
  match s with
  | EmptyString => EmptyString
  | String c s' =>
      match skip with
      | S k => replace_from old new k s'
      | O =>
          if String.prefix old s
          then new ++ replace_from old new (Nat.pred (String.length old)) s'
          else String c (replace_from old new O s')
      end
  end.

Definition replace (old new s : string) : string := replace_from old new O s.

Fixpoint lstrip (s : string) : string :=
  match s with
  | EmptyString => EmptyString
  | String c s' => if isspace c then lstrip s' else s
  end.

Fixpoint rstrip (s : string) : string :=
  match s with
  | EmptyString => EmptyString
  | String c s' =>
      match rstrip s' with
      | EmptyString => if isspace c then EmptyString else String c EmptyString
      | r => String c r
      end
  end.

(** [s.strip()]. *)
Definition strip (s : string) : string := rstrip (lstrip s).

Fixpoint take_word (s : string) : string :=
  match s with
  | EmptyString => EmptyString
  | String c s' => if isspace c then EmptyString else String c (take_word s')
  end.

(** [s.split()[0]]: the first white-space separated word, [None] where
    Python raises [IndexError] because there is none. *)
Definition first_word (s : string) : option string :=
  match take_word (lstrip s) with
  | EmptyString => None
  | w => Some w
  end.

(** [int(digits)] for a string of ASCII digits. *)
Fixpoint int_of_digits_from (acc : Z) (s : string) : Z :=
  match s with
  | EmptyString => acc
  | String c s' => int_of_digits_from (10 * acc + (Z.of_N (code c) - 48)) s'
  end.

Definition int_of_digits (s : string) : Z := int_of_digits_from 0 s.

(** A byte that starts a character in UTF-8 (anything but 10xxxxxx). *)
Definition starts_char (c : ascii) : bool :=
  negb ((128 <=? code c) && (code c <? 192))%N.

(** [len(s)]: the number of characters. *)
Fixpoint py_len (s : string) : nat :=
  match s with
  | EmptyString => O
  | String c s' => if starts_char c then S (py_len s') else py_len s'
  end.

(** The characters of [s], each with its continuation bytes. *)
Fixpoint chars (s : string) : list string :=
  match s with
  | EmptyString => []
  | String c s' =>
      match chars s' with
      | [] => [String c EmptyString]
      | w :: ws =>
          match w with
          | String d _ =>
              if starts_char d then String c EmptyString :: w :: ws
              else String c w :: ws
          | EmptyString => String c EmptyString :: ws
          end
      end
  end.

Definition concat_chars (l : list string) : string :=
  fold_right String.append EmptyString l.

(** [[cs[i:i+n] for i in range(0, len(cs), n)]] on a list of characters;
    [fuel] bounds the number of chunks. *)
Fixpoint chunk_list (fuel : nat) (n : nat) (cs : list string) : list string :=
  match fuel with
  | O => []
  | S fuel' =>
      match cs with
      | [] => []
      | _ => concat_chars (take n cs) :: chunk_list fuel' n (drop n cs)
      end
  end.

(** [[s[i:i+n] for i in range(0, len(s), n)]], for [n > 0]. *)
Definition py_chunks (n : nat) (s : string) : list string :=
  let cs := chars s in chunk_list (length cs) n cs.

(** ["\n".join(lines)]. *)
Fixpoint join (sep : string) (l : list string) : string :=
  match l with
  | [] => EmptyString
  | [x] => x
  | x :: l' => x ++ sep ++ join sep l'
  end.

(** [f"{n:3d}"]: decimal, right-aligned in a field of width 3. *)
Definition fmt_3d (n : Z) : string :=
  let s := pretty n in
  String.concat EmptyString (repeat " " (3 - String.length s)%nat) ++ s.

End PyStr.

(** ** Python values the program handles *)

(** The interpreter's floats: [float(s)] of a string ([None] where it raises
    [ValueError]), [float(n)] of an int ([None] where it raises
    [OverflowError]) and [str(x)] of a float. *)
Class PyFloat := {
  pyfloat : Type;
  float_of_str : string -> option pyfloat;
  float_of_int : Z -> option pyfloat;
  str_of_float : pyfloat -> string;
}.

(** Exceptions, with the text [str(e)] gives. *)
Inductive exn_kind :=
  | ValueError | TypeError | AttributeError | IndexError | OverflowError
  | HTTPError | RequestException | JSONDecodeError | OSError.

Record exn := Exn { exn_kind_of : exn_kind; exn_str : string }.

Inductive res (A : Type) :=
  | Ok (a : A)
  | Raise (e : exn).
Arguments Ok {A} a.
Arguments Raise {A} e.

Definition is_ok {A} (r : res A) : bool :=
  match r with Ok _ => true | Raise _ => false end.

(** The value returned, [d] where an exception was raised instead. *)
Definition value_or {A} (d : A) (r : res A) : A :=
  match r with Ok a => a | Raise _ => d end.

Section Model.
Context `{PyFloat}.

(** [@dataclass class Holder]. [address] is declared [str]; the Bitquery
    adapter stores whatever [.get("address")] returned, [None] included. *)
Record Holder := mkHolder {
  rank : Z;
  address : option string;
  balance_eth : pyfloat;
  balance_readable : string;
  percent_of_total : option pyfloat;
  label : option string;
}.

(** A value of the snapshot map:
    [{"rank": ..., "balance_eth": ..., "readable": ...}]. *)
Record entry := mkEntry {
  entry_rank : Z;
  entry_balance_eth : pyfloat;
  entry_readable : string;
}.

(** The document [save_snapshot] writes:
    [{"timestamp": ..., "holders_map": ...}]; [load_snapshot] may also
    return [{}], the document with neither key. *)
Record snapshot := mkSnapshot {
  timestamp : option Z;
  holders_map : option (gmap string entry);
}.

Definition empty_snapshot : snapshot := mkSnapshot None None.

(** ** The diff engine *)

(** [holders_to_map]: a dict comprehension, so a later holder with the same
    lower-cased address replaces an earlier one; [None.lower()] raises. *)
Fixpoint holders_to_map_from (m : gmap string entry) (holders : list Holder)
  : res (gmap string entry) :=
  match holders with
  | [] => Ok m
  | h :: rest =>
      match address h with
      | None => Raise (Exn AttributeError "'NoneType' object has no attribute 'lower'")
      | Some a =>
          holders_to_map_from
            (<[PyStr.lower a := mkEntry (rank h) (balance_eth h) (balance_readable h)]> m)
            rest
      end
  end.

Definition holders_to_map (holders : list Holder) : res (gmap string entry) :=
  holders_to_map_from ∅ holders.

(** The three loops of [compare_snapshots]. A Python set is iterated in an
    order the language leaves open; here it is the order of [elements], and
    what is stated of the three lists is stated of their records, up to
    that order, or of the lists once sorted. *)
Definition rank_change_of (old new : gmap string entry) (addr : string)
  : list (string * Z * Z) :=
  match old !! addr, new !! addr with
  | Some o, Some n =>
      if decide (entry_rank o ≠ entry_rank n)
      then [(addr, entry_rank o, entry_rank n)] else []
  | _, _ => []
  end.

Definition ranked_of (m : gmap string entry) (addr : string) : list (string * Z) :=
  match m !! addr with
  | Some e => [(addr, entry_rank e)]
  | None => []
  end.

Definition compare_snapshots (old new : gmap string entry)
  : list (string * Z * Z) * list (string * Z) * list (string * Z) :=
  let old_addrs : gset string := dom old in
  let new_addrs : gset string := dom new in
  let rank_changes := elements (new_addrs ∩ old_addrs) ≫= rank_change_of old new in
  let new_entries := elements (new_addrs ∖ old_addrs) ≫= ranked_of new in
  let removed := elements (old_addrs ∖ new_addrs) ≫= ranked_of old in
  (rank_changes, new_entries, removed).

(** [sorted(l, key=key)]: Python's sort is stable, and every stable sort
    returns the same list; this one inserts from the right. *)
Fixpoint insert_by {A} (key : A -> Z) (x : A) (l : list A) : list A :=
  match l with
  | [] => [x]
  | y :: l' => if (key x <=? key y)%Z then x :: y :: l' else y :: insert_by key x l'
  end.

Fixpoint sorted {A} (key : A -> Z) (l : list A) : list A :=
  match l with
  | [] => []
  | x :: l' => insert_by key x (sorted key l')
  end.

(** [l] is in ascending order of [key] (equal keys allowed). *)
Definition ascending {A} (key : A -> Z) (l : list A) : Prop :=
  StronglySorted (fun a b => (key a <= key b)%Z) l.

(** ** The world a cycle runs in *)

(** What [requests.post] to the Telegram API does: raise, or answer. *)
Inductive tg_reply :=
  | TgRaise (e : exn)
  | TgResponse (status_code : Z) (text : string).

(** The snapshot file. The program writes it with [json.dump] and reads it
    with [json.load]; the model keeps the document instead of its text:
    - [Document s]: the complete JSON text of [s];
    - [Truncated s n]: only the first [n] characters of the JSON text of
      [s], fewer than the whole text, which [json.load] rejects;
    - [Unreadable]: any other content [json.load] rejects. *)
Inductive file :=
  | NoFile
  | Document (s : snapshot)
  | Truncated (s : snapshot) (written : nat)
  | Unreadable.

Inductive level := DEBUG | INFO | WARNING | ERROR.

Record World := mkWorld {
  disk : file;                          (* SNAPSHOT_FILE *)
  state : gmap string Z;                (* the dict [main] passes to [job] *)
  outbox : list (string * tg_reply);    (* the posts to Telegram, oldest first *)
  logs : list (level * string);         (* the log records, oldest first *)
}.

(** A table as [parse_etherscan_accounts_page] sees it through
    BeautifulSoup: [get_text(strip=True)] of each [th], and for each [tr]
    its [td]/[th] cells, a cell being its [get_text(strip=True)] and that of
    its first [a], if it has one. *)
Record col := mkCol { col_text : string; col_a : option string }.
Record table := mkTable { th_texts : list string; trs : list (list col) }.

(** An HTTP response: [r.status_code], [r.text], and the tables
    [BeautifulSoup(r.text, "html.parser").find_all("table")] finds. *)
Record response := mkResponse {
  status_code : Z;
  text : string;
  soup : list table;
}.

Inductive http_reply :=
  | HttpRaise (e : exn)
  | HttpResponse (r : response).

(** JSON values as [r.json()] returns them. *)
#[local] Unset Elimination Schemes.
Inductive json :=
  | JNull
  | JBool (b : bool)
  | JInt (n : Z)
  | JFloat (x : pyfloat)
  | JStr (s : string)
  | JList (l : list json)
  | JDict (kv : list (string * json)).
#[local] Set Elimination Schemes.

(** What [requests.post] to Bitquery does: raise, or answer with a status
    and a body [r.json()] decodes or rejects. *)
Inductive bitquery_reply :=
  | BqRaise (e : exn)
  | BqResponse (status_code : Z) (body : res json).

Inductive save_fault :=
  | OpenFails (e : exn)                 (* [open(..., "w")] raises *)
  | WriteFails (written : nat) (e : exn). (* [json.dump] raises after [written] characters *)

(** The configuration read from the environment. *)
Record Config := mkConfig {
  BITQUERY_API_KEY : string;
  SEND_FULL_EVERY : Z;
}.

(** What the outside does during one cycle. *)
Record Env := mkEnv {
  etherscan_get : Z -> string -> http_reply; (* page being fetched, URL *)
  bitquery_post : bitquery_reply;
  telegram_post : nat -> tg_reply;           (* by number of posts made before *)
  read_fault : option exn;                   (* reading the snapshot file raises *)
  write_fault : option save_fault;
  clock : Z;                                 (* [int(time.time())] *)
}.

(** ** State and exceptions *)

Definition M (A : Type) : Type := World -> res A * World.

Definition ret {A} (a : A) : M A := fun w => (Ok a, w).

Definition bind {A B} (m : M A) (k : A -> M B) : M B :=
  fun w => match m w with
           | (Ok a, w') => k a w'
           | (Raise e, w') => (Raise e, w')
           end.

Definition raise {A} (e : exn) : M A := fun w => (Raise e, w).

(** [try: m  except Exception as e: handler e]. *)
Definition try_except {A} (m : M A) (handler : exn -> M A) : M A :=
  fun w => match m w with
           | (Ok a, w') => (Ok a, w')
           | (Raise e, w') => handler e w'
           end.

Definition lift {A} (r : res A) : M A := fun w => (r, w).

Definition log (l : level) (msg : string) : M unit :=
  fun w => (Ok tt, mkWorld (disk w) (state w) (outbox w) (logs w ++ [(l, msg)])).

Declare Scope py_scope.
Delimit Scope py_scope with py.
Notation "x <- m ;; k" := (bind m (fun x => k))
  (at level 100, m at next level, right associativity) : py_scope.
Notation "m ;;; k" := (bind m (fun _ => k))
  (at level 100, right associativity) : py_scope.
Local Open Scope py_scope.

(** [m] leaves the component [f] of the world as it found it, whether it
    returns or raises. *)
Definition keeps {A B} (f : World -> B) (m : M A) : Prop :=
  forall w, f (m w).2 = f w.

(** [for x in l: body x]. *)
Fixpoint for_each {A} (l : list A) (body : A -> M unit) : M unit :=
  match l with
  | [] => ret tt
  | x :: l' => body x ;;; for_each l' body
  end.

Definition nl : string := String (ascii_of_N 10) EmptyString.

(** [resp.raise_for_status()]: an [HTTPError] for a status from 400 to
    599. The text of the exception stands for the one requests builds from
    the status, the reason phrase and the URL, which the model does not
    carry; nothing is stated of it. *)
Definition raise_for_status (status_code : Z) : res unit :=
  if ((400 <=? status_code) && (status_code <? 600))%Z
  then Raise (Exn HTTPError (pretty status_code ++ " Error"))
  else Ok tt.

(** ** send_telegram *)

(** [requests.post] stands before the [try]: what it raises leaves
    [send_telegram]; only [raise_for_status] is guarded. *)
Definition send_telegram (env : Env) (text : string) : M unit :=
  fun w =>
    let reply := telegram_post env (length (outbox w)) in
    let w1 := mkWorld (disk w) (state w) (outbox w ++ [(text, reply)]) (logs w) in
    match reply with
    | TgRaise e => (Raise e, w1)
    | TgResponse status_code body =>
        try_except
          (lift (raise_for_status status_code) ;;; log DEBUG "Telegram sent")
          (fun _ => log ERROR ("Telegram send failed: " ++ pretty status_code ++ " " ++ body))
          w1
    end.

(** ** The snapshot store *)

Definition load_snapshot (env : Env) : M snapshot :=
  fun w =>
    match disk w with
    | NoFile => (Ok empty_snapshot, w)
    | Document s =>
        match read_fault env with
        | None => (Ok s, w)
        | Some e =>
            (log ERROR ("Failed to read snapshot file: " ++ exn_str e) ;;;
             ret empty_snapshot) w
        end
    | Truncated _ _ | Unreadable =>
        (log ERROR "Failed to read snapshot file: invalid JSON" ;;;
         ret empty_snapshot) w
    end.

(** [open(SNAPSHOT_FILE, "w")] empties the file before [json.dump] writes
    the first character. *)
Definition save_snapshot (env : Env) (snap : snapshot) : M unit :=
  fun w =>
    match write_fault env with
    | Some (OpenFails e) =>
        log ERROR ("Failed to save snapshot file: " ++ exn_str e) w
    | Some (WriteFails n e) =>
        log ERROR ("Failed to save snapshot file: " ++ exn_str e)
          (mkWorld (Truncated snap n) (state w) (outbox w) (logs w))
    | None =>
        (Ok tt, mkWorld (Document snap) (state w) (outbox w) (logs w))
    end.

(** ** The structured-page adapter (Etherscan) *)

(** The table whose headers name both a rank and an address. *)
Definition is_accounts_table (t : table) : bool :=
  let headers := map PyStr.lower (th_texts t) in
  existsb (PyStr.contains "rank") headers && existsb (PyStr.contains "address") headers.

(** The body of the row loop: [None] where the row is skipped, by
    [continue] or by the [except] around the conversions. (A rank of more
    digits than [int] accepts is outside the model.) *)
Definition parse_row (cols : list col) : option Holder :=
  match cols with
  | c0 :: c1 :: c2 :: more =>
      let rank_text := col_text c0 in
      let rank_digits := PyStr.filter_chars PyStr.isdigit rank_text in
      if decide (rank_digits = EmptyString) then None else
      let rank := PyStr.int_of_digits rank_digits in
      let address := match col_a c1 with Some a => a | None => col_text c1 end in
      let bal_text := col_text c2 in
      match PyStr.first_word
              (PyStr.strip (PyStr.replace "," "" (PyStr.replace "ETH" "" bal_text))) with
      | None => None                                  (* IndexError *)
      | Some bal_num_str =>
          match float_of_str bal_num_str with
          | None => None                              (* ValueError *)
          | Some bal_num =>
              let percent :=
                match more with
                | c3 :: _ =>
                    float_of_str (PyStr.replace "," "" (PyStr.replace "%" "" (col_text c3)))
                | [] => None
                end in
              Some (mkHolder rank (Some address) bal_num bal_text percent None)
          end
      end
  | _ => None                                         (* len(cols) < 3 *)
  end.

Definition parse_etherscan_accounts_page (html : response) : res (list Holder) :=
  match find is_accounts_table (soup html) with
  | None => Raise (Exn ValueError "Top accounts table not found on etherscan page")
  | Some table =>
      let rows := omap parse_row (trs table) in
      Ok (take 100 (sorted rank rows))
  end.

(** The three addresses tried for a page. *)
Definition try_urls (page : Z) : list string :=
  [ "https://etherscan.io/accounts/" ++ pretty ((page - 1) * 25);
    "https://etherscan.io/accounts?page=" ++ pretty page;
    "https://etherscan.io/accounts/c?page=" ++ pretty page ].

(** [for u in try_urls]: the first answer with status 200 and a marker in
    its text; an answer without, or an exception, moves on to the next. *)
Fixpoint first_good (get : string -> http_reply) (urls : list string) : option response :=
  match urls with
  | [] => None
  | u :: urls' =>
      match get u with
      | HttpResponse r =>
          if (status_code r =? 200)%Z
             && (PyStr.contains "Top Accounts" (text r)
                 || PyStr.contains "accounts list" (PyStr.lower (text r)))
          then Some r
          else first_good get urls'
      | HttpRaise _ => first_good get urls'
      end
  end.

(** [for h in parsed]: append the holders whose address no holder kept so
    far has, up to 100 holders. *)
Fixpoint add_new (holders parsed : list Holder) : list Holder :=
  match parsed with
  | [] => holders
  | h :: parsed' =>
      if (100 <=? length holders)%nat then holders
      else if existsb (fun other => bool_decide (address other = address h)) holders
           then add_new holders parsed'
           else add_new (holders ++ [h]) parsed'
  end.

(** The [while] loop; [pages_left] is [pages_needed - page + 1]. *)
Fixpoint fetch_pages (env : Env) (pages_left : nat) (page : Z) (holders : list Holder)
  : res (list Holder) :=
  match pages_left with
  | O => Ok holders
  | S pages_left' =>
      if (length holders <? 100)%nat then
        let fallback :=
          match etherscan_get env page "https://etherscan.io/accounts" with
          | HttpRaise e => Raise e
          | HttpResponse r => Ok r
          end in
        let page_html :=
          match first_good (etherscan_get env page) (try_urls page) with
          | Some r => if decide (text r = EmptyString) then fallback else Ok r
          | None => fallback
          end in
        match page_html with
        | Raise e => Raise e
        | Ok html =>
            match parse_etherscan_accounts_page html with
            | Raise e => Raise e
            | Ok parsed => fetch_pages env pages_left' (page + 1) (add_new holders parsed)
            end
        end
      else Ok holders
  end.

Definition fetch_top_from_etherscan (env : Env) (pages_needed : Z) : res (list Holder) :=
  match fetch_pages env (Z.to_nat pages_needed) 1 [] with
  | Raise e => Raise e
  | Ok holders => Ok (take 100 holders)
  end.

(** ** The query-API adapter (Bitquery) *)

Definition no_attribute (what attr : string) : exn :=
  Exn AttributeError ("'" ++ what ++ "' object has no attribute '" ++ attr ++ "'").

Definition type_name (j : json) : string :=
  match j with
  | JNull => "NoneType" | JBool _ => "bool" | JInt _ => "int" | JFloat _ => "float"
  | JStr _ => "str" | JList _ => "list" | JDict _ => "dict"
  end.

Fixpoint assoc (k : string) (kv : list (string * json)) : option json :=
  match kv with
  | [] => None
  | (k', v) :: kv' => if decide (k = k') then Some v else assoc k kv'
  end.

(** [j.get(k, default)]: only a dict has [get]. *)
Definition py_get (j : json) (k : string) (default : json) : res json :=
  match j with
  | JDict kv => Ok (match assoc k kv with Some v => v | None => default end)
  | _ => Raise (no_attribute (type_name j) "get")
  end.

Definition char_strings (s : string) : list json :=
  map JStr (PyStr.chars s).

(** What a [for] loop over [j] visits: the items of a list, the keys of a
    dict, the characters of a string. *)
Definition py_iter (j : json) : res (list json) :=
  match j with
  | JList l => Ok l
  | JDict kv => Ok (map (fun p => JStr (fst p)) kv)
  | JStr s => Ok (char_strings s)
  | _ => Raise (Exn TypeError ("'" ++ type_name j ++ "' object is not iterable"))
  end.

Definition of_option {A} (e : exn) (o : option A) : res A :=
  match o with Some a => Ok a | None => Raise e end.

(** [float(j)]. *)
Definition py_float (j : json) : res pyfloat :=
  match j with
  | JFloat x => Ok x
  | JInt n => of_option (Exn OverflowError "int too large to convert to float") (float_of_int n)
  | JBool b => of_option (Exn OverflowError "int too large to convert to float")
                 (float_of_int (if b then 1 else 0))
  | JStr s => of_option (Exn ValueError ("could not convert string to float: '" ++ s ++ "'"))
                (float_of_str s)
  | _ => Raise (Exn TypeError ("float() argument must be a string or a real number, not '"
                                ++ type_name j ++ "'"))
  end.

Definition res_bind {A B} (r : res A) (k : A -> res B) : res B :=
  match r with Ok a => k a | Raise e => Raise e end.

(** The body of the loop over the balances, for the item numbered [i]. *)
Definition bitquery_holder (i : Z) (item : json) : res Holder :=
  res_bind (py_get item "address" (JDict [])) (fun a =>
  res_bind (py_get a "address" JNull) (fun addr =>
  res_bind (py_get item "balance" (JInt 0)) (fun b =>
  res_bind (py_float b) (fun bal =>
  Ok (mkHolder i (match addr with JStr s => Some s | _ => None end)
        bal (str_of_float bal ++ " ETH") None None))))).

(** [for i, item in enumerate(items, start=i)]. *)
Fixpoint bitquery_holders (i : Z) (items : list json) : res (list Holder) :=
  match items with
  | [] => Ok []
  | item :: items' =>
      res_bind (bitquery_holder i item) (fun h =>
      res_bind (bitquery_holders (i + 1) items') (fun hs => Ok (h :: hs)))
  end.

(** [limit] goes into the query; the answer is taken as it comes. *)
Definition fetch_top_with_bitquery (cfg : Config) (env : Env) (limit : Z)
  : res (list Holder) :=
  if decide (BITQUERY_API_KEY cfg = EmptyString)
  then Raise (Exn ValueError "No BITQUERY_API_KEY configured")
  else
    match bitquery_post env with
    | BqRaise e => Raise e
    | BqResponse status_code body =>
        res_bind (raise_for_status status_code) (fun _ =>
        res_bind body (fun data =>
        res_bind (py_get data "data" (JDict [])) (fun d =>
        res_bind (py_get d "ethereum" (JDict [])) (fun eth =>
        res_bind (py_get eth "balances" (JList [])) (fun balances =>
        res_bind (py_iter balances) (fun items =>
        bitquery_holders 1 items))))))
    end.

(** ** The report formatter *)

Definition format_holder_line (rank : Z) (address : option string) (readable : string)
    (label : option string) : string :=
  let lbl := match label with
             | Some l => if decide (l = EmptyString) then EmptyString else " — " ++ l
             | None => EmptyString
             end in
  "<b>" ++ PyStr.fmt_3d rank ++ ".</b> <code>" ++ default "None" address
    ++ "</code> — " ++ readable ++ lbl.

Definition entry_line (x : string * Z) : string :=
  PyStr.fmt_3d x.2 ++ ". <code>" ++ x.1 ++ "</code>".

Definition rank_change_line (x : string * Z * Z) : string :=
  let '(addr, orank, nrank) := x in
  let delta := nrank - orank in
  let arrow := if (delta <? 0)%Z then "↑" else "↓" in
  PyStr.fmt_3d nrank ++ ". <code>" ++ addr ++ "</code> " ++ arrow
    ++ " (" ++ pretty orank ++ " → " ++ pretty nrank ++ ")".

(** The key [lambda x: (x[1]-x[2])] of the rank-change sort. *)
Definition rank_change_key (x : string * Z * Z) : Z := x.1.2 - x.2.

(** The rank changes in the order the report lists them. *)
Definition sorted_rank_changes (rank_changes : list (string * Z * Z)) : list (string * Z * Z) :=
  sorted rank_change_key rank_changes.

(** The reading of that order the specification gives, "the largest upward
    jumps first": a record never comes after one that climbed fewer places,
    the places climbed being [old_rank - new_rank]. *)
Definition largest_upward_jumps_first (l : list (string * Z * Z)) : Prop :=
  StronglySorted (fun x y => (rank_change_key y <= rank_change_key x)%Z) l.

Definition nonempty {A} (l : list A) : bool :=
  match l with [] => false | _ => true end.

(** The list [messages] of [job], when there is a change. *)
Definition change_messages (rank_changes : list (string * Z * Z))
    (new_entries removed : list (string * Z)) : list string :=
  let header := "🔔 <b>Top-100 ETH list changed</b>" ++ nl in
  [header]
  ++ (if nonempty new_entries
      then "<b>➕ New in top-100:</b>" :: map entry_line (sorted snd new_entries)
      else [])
  ++ (if nonempty removed
      then (nl ++ "<b>➖ Removed from top-100:</b>") :: map entry_line (sorted snd removed)
      else [])
  ++ (if nonempty rank_changes
      then (nl ++ "<b>🔀 Rank changes:</b>")
             :: map rank_change_line (sorted_rank_changes rank_changes)
      else []).

(** The text of the full listing. *)
Definition full_listing (holders : list Holder) : string :=
  let header := "<b>📋 Top 100 ETH holders (snapshot)</b>" ++ nl in
  PyStr.join nl
    (header :: map (fun h => format_holder_line (rank h) (address h)
                               (balance_readable h) (label h)) holders).

(** ** The cycle *)

Definition set_polls_done (n : Z) : M unit :=
  fun w => (Ok tt, mkWorld (disk w) (<["polls_done" := n]> (state w)) (outbox w) (logs w)).

Definition get_polls_done : M Z :=
  fun w => (Ok (default 0 (state w !! "polls_done")), w).

(** The first statements of [job]: Etherscan, checked for at least 10
    holders; on any exception Bitquery, if a key is configured, unchecked. *)
Definition acquire (cfg : Config) (env : Env) : M (list Holder) :=
  log INFO "Fetching top holders from Etherscan..." ;;;
  try_except
    (holders <- lift (fetch_top_from_etherscan env 4) ;;
     if negb (nonempty holders) || (length holders <? 10)%nat
     then raise (Exn ValueError "Etherscan returned suspiciously few holders")
     else ret holders)
    (fun e =>
       log WARNING ("Etherscan fetch failed: " ++ exn_str e) ;;;
       if decide (BITQUERY_API_KEY cfg = EmptyString)
       then raise e
       else log INFO "Trying Bitquery as backup..." ;;;
            lift (fetch_top_with_bitquery cfg env 100)).

(** The statements of [job] that follow the acquisition, inside its [try]. *)
Definition report_and_save (cfg : Config) (env : Env) (holders : list Holder) : M unit :=
  new_map <- lift (holders_to_map holders) ;;
  old_snapshot <- load_snapshot env ;;
  let old_map := default ∅ (holders_map old_snapshot) in
  let '(rank_changes, new_entries, removed) := compare_snapshots old_map new_map in
  (if nonempty rank_changes || nonempty new_entries || nonempty removed
   then
     let full_text := PyStr.join nl (change_messages rank_changes new_entries removed) in
     if (3800 <? PyStr.py_len full_text)%nat
     then for_each (PyStr.py_chunks 3500 full_text) (send_telegram env)
     else send_telegram env full_text
   else log INFO "No changes in top-100") ;;;
  n <- get_polls_done ;;
  set_polls_done (n + 1) ;;;
  polls_done <- get_polls_done ;;
  (if (0 <? SEND_FULL_EVERY cfg)%Z && (polls_done mod SEND_FULL_EVERY cfg =? 0)%Z
   then for_each (PyStr.py_chunks 3800 (full_listing holders)) (send_telegram env)
   else ret tt) ;;;
  save_snapshot env (mkSnapshot (Some (clock env)) (Some new_map)).

(** The body of the [try] of [job]: the cycle proper. *)
Definition cycle (cfg : Config) (env : Env) : M unit :=
  holders <- acquire cfg env ;;
  report_and_save cfg env holders.

Definition job (cfg : Config) (env : Env) : M unit :=
  try_except
    (cycle cfg env)
    (fun e =>
       log ERROR ("Job failed: " ++ exn_str e) ;;;
       send_telegram env ("⚠️ <b>eth_top_monitor error</b>" ++ nl ++ exn_str e)).

(** The scheduler runs [job] at each interval and keeps going when it
    raises. *)
Fixpoint scheduled (cfg : Config) (envs : list Env) : M unit :=
  match envs with
  | [] => ret tt
  | env :: envs' =>
      try_except (job cfg env) (fun _ => ret tt) ;;;
      scheduled cfg envs'
  end.

(** [main]: a first [job] outside the scheduler, then the scheduled ones.
    [envs] is what the outside does during the scheduled cycles that run
    before the process is stopped. *)
Definition main (cfg : Config) (env : Env) (envs : list Env) : M unit :=
  (fun w => (Ok tt, mkWorld (disk w) {["polls_done" := 0]} (outbox w) (logs w))) ;;;
  job cfg env ;;;
  log INFO "Scheduler start" ;;;
  scheduled cfg envs.

End Model.

(** ** Vocabulary of the further properties *)

Section Frames.
Context `{PyFloat}.

(** [m] only appends to the outbox, and every text it posts satisfies [P]. *)
Definition posts_only {A} (P : string -> Prop) (m : M A) : Prop :=
  forall w, exists new,
    outbox (m w).2 = app (outbox w) new /\ Forall (fun p => P p.1) new.

(** [m] leaves the snapshot file as it found it whenever it raises. *)
Definition writes_only_on_return {A} (m : M A) : Prop :=
  forall w, is_ok (m w).1 = false -> disk (m w).2 = disk w.

(** [state.get("polls_done", 0)]. *)
Definition polls_done_of (w : World) : Z := default 0 (state w !! "polls_done").

(** The value [holders_to_map] stores for a holder. *)
Definition holder_entry (h : Holder) : entry :=
  mkEntry (rank h) (balance_eth h) (balance_readable h).

(** A rank change read backwards. *)
Definition flip_change (x : string * Z * Z) : string * Z * Z := (x.1.1, x.2, x.1.2).

(** The test of [ascending]. *)
Fixpoint ascendingb {A} (key : A -> Z) (l : list A) : bool :=
  match l with
  | [] => true
  | x :: l' => forallb (fun y => (key x <=? key y)%Z) l' && ascendingb key l'
  end.

(** [if SEND_FULL_EVERY > 0 and polls_done % SEND_FULL_EVERY == 0], for the
    counter value [n]. *)
Definition listing_due (cfg : Config) (n : Z) : bool :=
  (0 <? SEND_FULL_EVERY cfg)%Z && (n mod SEND_FULL_EVERY cfg =? 0)%Z.

End Frames.

(** ** The steps of a cycle, one by one *)

Section Steps.
Context `{PyFloat}.

(** The change report of [job]: the diff, and the post of its text in one
    piece or in pieces of 3500 characters. *)
Definition report_changes (env : Env) (old_map new_map : gmap string entry) : M unit :=
  let '(rank_changes, new_entries, removed) := compare_snapshots old_map new_map in
  if nonempty rank_changes || nonempty new_entries || nonempty removed
  then
    let full_text := PyStr.join nl (change_messages rank_changes new_entries removed) in
    if (3800 <? PyStr.py_len full_text)%nat
    then for_each (PyStr.py_chunks 3500 full_text) (send_telegram env)
    else send_telegram env full_text
  else log INFO "No changes in top-100".

(** The end of the [try] of [job]: the counter, the full listing when it is
    due, the snapshot. *)
Definition count_and_save (cfg : Config) (env : Env) (holders : list Holder)
    (new_map : gmap string entry) : M unit :=
  bind get_polls_done (fun n =>
  bind (set_polls_done (n + 1)) (fun _ =>
  bind get_polls_done (fun polls_done =>
  bind (if listing_due cfg polls_done
        then for_each (PyStr.py_chunks 3800 (full_listing holders)) (send_telegram env)
        else ret tt) (fun _ =>
  save_snapshot env (mkSnapshot (Some (clock env)) (Some new_map)))))).

(** What [save_snapshot] leaves in the file, by the fault it meets. *)
Definition saved (env : Env) (snap : snapshot) (before : file) : file :=
  match write_fault env with
  | None => Document snap
  | Some (OpenFails _) => before
  | Some (WriteFails n _) => Truncated snap n
  end.

End Steps.

(** ** Concrete inputs *)

Module Demo.

(** The value of a string of digits, [None] if another character occurs. *)
Fixpoint digits_value (acc : Z) (s : string) : option Z :=
  match s with
  | EmptyString => Some acc
  | String c s' =>
      if PyStr.isdigit c
      then digits_value (10 * acc + (Z.of_N (PyStr.code c) - 48)) s'
      else None
  end.

(** Floats of integral value, written as their integer: on a string of
    digits, on an int and on [str] they do what CPython does (below 2^53). *)
Definition IntegralFloat : PyFloat := {|
  pyfloat := Z;
  float_of_str s := match s with EmptyString => None | _ => digits_value 0 s end;
  float_of_int n := Some n;
  str_of_float x := NilZero.string_of_int (Z.to_int x) ++ ".0";
|}.
#[local] Existing Instance IntegralFloat.

Definition ConnectionError : exn := Exn RequestException "Connection refused".

Definition accounts_table (rows : list (list col)) : table :=
  mkTable ["Rank"; "Address"; "Balance"; "Percentage"] rows.

Definition accounts_page (rows : list (list col)) : response :=
  mkResponse 200 "<h1>Top Accounts by ETH Balance</h1>" [accounts_table rows].

Definition row (rank address balance : string) : list col :=
  [mkCol rank None; mkCol address (Some address); mkCol balance None].

(** Row [i] of a listing: rank [i], address [0x] followed by [i]. *)
Definition numbered_row (i : nat) : list col :=
  row (pretty (Z.of_nat i)) ("0x" ++ pretty (Z.of_nat i)) "5 ETH".

(** Etherscan page [p] lists the ranks [25 (p-1) + 1 .. 25 p]. *)
Definition listing_page (page : Z) : response :=
  accounts_page (map numbered_row (seq (Z.to_nat (25 * (page - 1) + 1)) 25)).

Definition etherscan_up (page : Z) (url : string) : http_reply :=
  HttpResponse (listing_page page).

Definition etherscan_down (page : Z) (url : string) : http_reply :=
  HttpRaise ConnectionError.

(** Every page is the same five rows. *)
Definition etherscan_five (page : Z) (url : string) : http_reply :=
  HttpResponse (accounts_page (map numbered_row (seq 1 5))).

Definition balance_item (address : string) : json :=
  JDict [("address", JDict [("address", JStr address)]);
         ("currency", JDict [("symbol", JStr "ETH")]);
         ("balance", JInt 7)].

Definition bitquery_answer (items : list json) : bitquery_reply :=
  BqResponse 200 (Ok (JDict [("data", JDict [("ethereum", JDict [("balances", JList items)])])])).

Definition telegram_up (n : nat) : tg_reply := TgResponse 200 "{}".
Definition telegram_down (n : nat) : tg_reply := TgRaise ConnectionError.

Definition no_key : Config := mkConfig "" 144.
Definition with_key : Config := mkConfig "BQY-key" 144.

Definition every_second : Config := mkConfig "" 2.

Definition fresh : World := mkWorld NoFile {["polls_done" := 0]} [] [].

(** Nothing answers: neither Etherscan nor Bitquery. *)
Definition outage : Env :=
  mkEnv etherscan_down (BqRaise ConnectionError) telegram_up None None 1700000000.

(** Etherscan lists five holders; Bitquery answers with three. *)
Definition five_then_three : Env :=
  mkEnv etherscan_five
    (bitquery_answer [balance_item "0xAa"; balance_item "0xBb"; balance_item "0xCc"])
    telegram_up None None 1700000000.

(** Etherscan is down; Bitquery answers with 101 balances. *)
Definition bitquery_101 : Env :=
  mkEnv etherscan_down
    (bitquery_answer (map (fun i => balance_item ("0x" ++ pretty (Z.of_nat i))) (seq 1 101)))
    telegram_up None None 1700000000.

(** The first page lists 0xa and 0xb; when the next page is fetched, 0xc
    has overtaken both and the page served lists 0xc and 0xa. *)
Definition etherscan_moving (page : Z) (url : string) : http_reply :=
  HttpResponse
    (if (page =? 1)%Z
     then accounts_page [row "1" "0xa" "9 ETH"; row "2" "0xb" "8 ETH"]
     else accounts_page [row "1" "0xc" "10 ETH"; row "2" "0xa" "9 ETH"]).

Definition moving : Env :=
  mkEnv etherscan_moving (BqRaise ConnectionError) telegram_up None None 1700000000.

(** One address is listed twice, in two letter cases. *)
Definition etherscan_two_cases (page : Z) (url : string) : http_reply :=
  HttpResponse (accounts_page [row "1" "0xAB" "9 ETH"; row "2" "0xab" "8 ETH"]).

Definition two_cases : Env :=
  mkEnv etherscan_two_cases (BqRaise ConnectionError) telegram_up None None 1700000000.

(** Etherscan lists its hundred holders; the second post to Telegram of the
    run meets a refused connection. *)
Definition second_post_refused (now : Z) : Env :=
  mkEnv etherscan_up (BqRaise ConnectionError)
    (fun n => if (n =? 1)%nat then TgRaise ConnectionError else TgResponse 200 "{}")
    None None now.


Definition an_entry (r : Z) : entry := mkEntry r 5 "5 ETH".

(** What a holder shows in the report: rank, address, balance text. *)
Definition shown (h : Holder) : Z * option string * string :=
  (rank h, address h, balance_readable h).

(** The snapshot file, if it holds a whole document: its timestamp, and
    its addresses with their ranks, by rank. *)
Definition on_disk (w : World) : option (option Z * list (string * Z)) :=
  match disk w with
  | Document s =>
      Some (timestamp s,
            sorted snd (map_to_list (entry_rank <$> default ∅ (holders_map s))))
  | _ => None
  end.

Definition old_snapshot : snapshot :=
  mkSnapshot (Some 1700000000) (Some {[ "0xa" := an_entry 1 ]}).

Definition new_snapshot : snapshot :=
  mkSnapshot (Some 1700000600) (Some {[ "0xa" := an_entry 2; "0xb" := an_entry 1 ]}).

(** The scenario of the specification: A:1, B:2, C:3, then B:1, A:2, D:3. *)
Definition abc_old : gmap string entry :=
  {[ "A" := an_entry 1; "B" := an_entry 2; "C" := an_entry 3 ]}.

Definition abc_new : gmap string entry :=
  {[ "B" := an_entry 1; "A" := an_entry 2; "D" := an_entry 3 ]}.

Definition with_old_snapshot : World :=
  mkWorld (Document old_snapshot) {["polls_done" := 1]} [] [].


(** The hundred holders Etherscan lists, and their map. *)
Definition listing : list Holder :=
  value_or [] (fetch_top_from_etherscan (second_post_refused 0) 4).

Definition listed_map : gmap string entry := value_or ∅ (holders_to_map listing).

(** The listing as saved by an earlier cycle, when every balance was 1 ETH;
    the counter stands at 0. *)
Definition settled_snapshot : snapshot :=
  mkSnapshot (Some 1700000000)
    (Some ((fun e => mkEntry (entry_rank e) 1 "1 ETH") <$> listed_map)).

Definition settled : World :=
  mkWorld (Document settled_snapshot) {["polls_done" := 0]} [] [].

(** No file yet, the counter at 1: the next cycle owes the listing. *)
Definition listing_owed : World := mkWorld NoFile {["polls_done" := 1]} [] [].

(** Telegram answers the first post of the run with a server error. *)
Definition telegram_error : Env :=
  mkEnv etherscan_down (BqRaise ConnectionError)
    (fun n => TgResponse 502 "Bad Gateway") None None 1700000000.

Definition ReadTimeout : exn := Exn RequestException "Read timed out.".

(** The three numbered addresses refuse the connection; the unnumbered
    first page, asked for last, times out. *)
Definition timing_out : Env :=
  mkEnv
    (fun page url =>
       if decide (url = "https://etherscan.io/accounts")
       then HttpRaise ReadTimeout else HttpRaise ConnectionError)
    (BqRaise ConnectionError) telegram_up None None 1700000000.

(** Etherscan lists five holders, and Bitquery answers with [items]. *)
Definition short_backup (items : list json) : Env :=
  mkEnv etherscan_five (bitquery_answer items) telegram_up None None 1700000600.

(** The same holder under the same rank, with two balances. *)
Definition richer (balance : Z) : gmap string entry :=
  {[ "0xa" := mkEntry 1 balance "ETH" ]}.
End Demo.

(** * Properties *)

Section Diff.
Context `{PyFloat}.
Implicit Types old new : gmap string entry.

Lemma elem_of_ranked_of (m : gmap string entry) (s : gset string) addr r :
  (addr, r) ∈ elements s ≫= ranked_of m ↔
  addr ∈ s ∧ ∃ e, m !! addr = Some e ∧ entry_rank e = r.
Proof.
  rewrite list_elem_of_bind. split.
  - intros (a & Hin & Ha). apply elem_of_elements in Ha.
    unfold ranked_of in Hin. destruct (m !! a) as [e|] eqn:E.
    + apply list_elem_of_singleton in Hin. inversion Hin; subst. eauto.
    + by apply not_elem_of_nil in Hin.
  - intros (Ha & e & E & <-). exists addr. split.
    + unfold ranked_of. rewrite E. by apply list_elem_of_singleton.
    + by apply elem_of_elements.
Qed.

Lemma ranked_of_keys (m : gmap string entry) (s : gset string) :
  s ⊆ dom m → (elements s ≫= ranked_of m).*1 = elements s.
Proof.
  intros Hs. assert (Hall : Forall (λ a, a ∈ dom m) (elements s)).
  { apply Forall_forall. intros a Ha. apply Hs. by apply elem_of_elements. }
  induction Hall as [|a l Ha _ IH]; [done|].
  apply elem_of_dom in Ha as [e He].
  cbn. unfold ranked_of at 1. rewrite He. cbn. by f_equal.
Qed.

Lemma elem_of_rank_changes old new addr o n :
  (addr, o, n) ∈ (compare_snapshots old new).1.1 ↔
  ∃ eo en, old !! addr = Some eo ∧ new !! addr = Some en
           ∧ entry_rank eo = o ∧ entry_rank en = n ∧ o ≠ n.
Proof.
  cbn. rewrite list_elem_of_bind. split.
  - intros (a & Hin & _). unfold rank_change_of in Hin.
    destruct (old !! a) as [eo|] eqn:Eo; [|by apply not_elem_of_nil in Hin].
    destruct (new !! a) as [en|] eqn:En; [|by apply not_elem_of_nil in Hin].
    case_decide; [|by apply not_elem_of_nil in Hin].
    apply list_elem_of_singleton in Hin. inversion Hin; subst. eauto 10.
  - intros (eo & en & Eo & En & <- & <- & Hne). exists addr. split.
    + unfold rank_change_of. rewrite Eo, En. rewrite decide_True by done.
      by apply list_elem_of_singleton.
    + apply elem_of_elements, elem_of_intersection.
      split; apply elem_of_dom; eauto.
Qed.

(** C1. For all snapshot maps [old] and [new], the identities of the entrants
    are exactly the keys of [new] that are not keys of [old], the identities
    of the exits are exactly the keys of [old] that are not keys of [new],
    each of them listed with the rank it has in its map, and the rank
    changes are exactly the records [(identity, old_rank, new_rank)] of the
    identities that both maps have with different ranks. *)
Theorem compare_snapshots_sets old new :
  let '(rank_changes, new_entries, removed) := compare_snapshots old new in
  list_to_set (new_entries.*1) = dom new ∖ dom old
  ∧ list_to_set (removed.*1) = dom old ∖ dom new
  ∧ (∀ addr r, (addr, r) ∈ new_entries ↔
       (addr ∉ dom old) ∧ ∃ e, new !! addr = Some e ∧ entry_rank e = r)
  ∧ (∀ addr r, (addr, r) ∈ removed ↔
       (addr ∉ dom new) ∧ ∃ e, old !! addr = Some e ∧ entry_rank e = r)
  ∧ (∀ addr o n, (addr, o, n) ∈ rank_changes ↔
       ∃ eo en, old !! addr = Some eo ∧ new !! addr = Some en
                ∧ entry_rank eo = o ∧ entry_rank en = n ∧ o ≠ n).
Proof.
  pose proof (elem_of_rank_changes old new) as Hrc.
  unfold compare_snapshots in *. cbn in Hrc. cbn zeta.
  split_and!.
  - rewrite ranked_of_keys by apply subseteq_difference_l, reflexivity.
    apply list_to_set_elements_L.
  - rewrite ranked_of_keys by apply subseteq_difference_l, reflexivity.
    apply list_to_set_elements_L.
  - intros addr r. rewrite elem_of_ranked_of, elem_of_difference.
    split.
    + intros ([_ ?] & ?). done.
    + intros (? & e & He & ?). split_and!; eauto. apply elem_of_dom; eauto.
  - intros addr r. rewrite elem_of_ranked_of, elem_of_difference.
    split.
    + intros ([_ ?] & ?). done.
    + intros (? & e & He & ?). split_and!; eauto. apply elem_of_dom; eauto.
  - exact Hrc.
Qed.


End Diff.

Lemma ok_value_or {A} (d : A) (r : res A) : is_ok r = true → r = Ok (value_or d r).
Proof. by destruct r. Qed.

Section Cycle.
Context `{PyFloat}.

(** *** What each statement leaves alone *)

Lemma keeps_ret {A B} (f : World → B) (a : A) : keeps f (ret a).
Proof. by intros w. Qed.

Lemma keeps_raise {A B} (f : World → B) (e : exn) : keeps f (raise (A:=A) e).
Proof. by intros w. Qed.

Lemma keeps_lift {A B} (f : World → B) (r : res A) : keeps f (lift r).
Proof. by intros w. Qed.

Lemma keeps_bind {A A' B} (f : World → B) (m : M A) (k : A → M A') :
  keeps f m → (∀ a, keeps f (k a)) → keeps f (bind m k).
Proof.
  intros Hm Hk w. unfold bind. specialize (Hm w).
  destruct (m w) as [[a|e] w']; cbn in *; [by rewrite Hk | done].
Qed.

Lemma keeps_try_except {A B} (f : World → B) (m : M A) (h : exn → M A) :
  keeps f m → (∀ e, keeps f (h e)) → keeps f (try_except m h).
Proof.
  intros Hm Hh w. unfold try_except. specialize (Hm w).
  destruct (m w) as [[a|e] w']; cbn in *; [done | by rewrite Hh].
Qed.

Lemma keeps_for_each {A B} (f : World → B) (l : list A) (body : A → M unit) :
  (∀ x, keeps f (body x)) → keeps f (for_each l body).
Proof.
  intros Hb. induction l as [|x l IH]; cbn; [apply keeps_ret|].
  apply keeps_bind; auto.
Qed.

Lemma keeps_if {A B} (f : World → B) (b : bool) (m1 m2 : M A) :
  keeps f m1 → keeps f m2 → keeps f (if b then m1 else m2).
Proof. by destruct b. Qed.

Lemma log_keeps_disk l msg : keeps disk (log l msg).
Proof. by intros w. Qed.

Lemma log_keeps_state l msg : keeps state (log l msg).
Proof. by intros w. Qed.

Lemma log_keeps_outbox l msg : keeps outbox (log l msg).
Proof. by intros w. Qed.

Lemma send_telegram_keeps_disk env text : keeps disk (send_telegram env text).
Proof.
  intros w. unfold send_telegram.
  destruct (telegram_post env _) as [e|code body]; [done|].
  unfold try_except, bind, lift. by destruct (raise_for_status code).
Qed.

Lemma send_telegram_keeps_state env text : keeps state (send_telegram env text).
Proof.
  intros w. unfold send_telegram.
  destruct (telegram_post env _) as [e|code body]; [done|].
  unfold try_except, bind, lift. by destruct (raise_for_status code).
Qed.

Lemma load_snapshot_keeps_disk env : keeps disk (load_snapshot env).
Proof.
  intros w. unfold load_snapshot.
  destruct (disk w) eqn:E; cbn; try done. by destruct (read_fault env).
Qed.

Lemma get_polls_done_keeps {B} (f : World → B) : keeps f get_polls_done.
Proof. by intros w. Qed.

Lemma set_polls_done_keeps_disk n : keeps disk (set_polls_done n).
Proof. by intros w. Qed.

Create HintDb keeps discriminated.
#[local] Hint Resolve keeps_ret keeps_raise keeps_lift keeps_for_each
  log_keeps_disk log_keeps_state log_keeps_outbox
  send_telegram_keeps_disk send_telegram_keeps_state load_snapshot_keeps_disk
  get_polls_done_keeps set_polls_done_keeps_disk : keeps.

Ltac keeps_step :=
  first [ apply keeps_bind; [|intros ?]
        | apply keeps_try_except; [|intros ?]
        | apply keeps_if
        | solve [eauto with keeps] ].

Lemma acquire_keeps_disk cfg env : keeps disk (acquire cfg env).
Proof.
  unfold acquire. repeat keeps_step.
  case_decide; repeat keeps_step.
Qed.

Lemma acquire_keeps_state cfg env : keeps state (acquire cfg env).
Proof.
  unfold acquire. repeat keeps_step.
  case_decide; repeat keeps_step.
Qed.

Lemma acquire_keeps_outbox cfg env : keeps outbox (acquire cfg env).
Proof.
  unfold acquire. repeat keeps_step.
  case_decide; repeat keeps_step.
Qed.

(** What [acquire] returns: the Etherscan holders when there are at least
    ten; otherwise, with a key, whatever Bitquery returns or raises, and
    without one, the exception of the Etherscan side. *)
Lemma acquire_result cfg env w :
  (acquire cfg env w).1 =
    let primary :=
      match fetch_top_from_etherscan env 4 with
      | Ok holders =>
          if negb (nonempty holders) || (length holders <? 10)%nat
          then Raise (Exn ValueError "Etherscan returned suspiciously few holders")
          else Ok holders
      | Raise e => Raise e
      end in
    match primary with
    | Ok holders => Ok holders
    | Raise e =>
        if decide (BITQUERY_API_KEY cfg = EmptyString) then Raise e
        else fetch_top_with_bitquery cfg env 100
    end.
Proof.
  unfold acquire, bind, try_except, lift, log, raise, ret. cbn -[Nat.ltb].
  destruct (fetch_top_from_etherscan env 4) as [holders|e]; cbn -[Nat.ltb].
  - destruct (negb (nonempty holders) || (length holders <? 10)%nat); cbn; [|done].
    by case_decide.
  - by case_decide.
Qed.

(** The handler of [job]: one log record and one post, which may raise. *)
Lemma job_when_acquire_raises cfg env w e w1 :
  acquire cfg env w = (Raise e, w1) →
  job cfg env w =
    bind (log ERROR ("Job failed: " ++ exn_str e))
      (λ _, send_telegram env ("⚠️ <b>eth_top_monitor error</b>" ++ nl ++ exn_str e)) w1.
Proof.
  intros Hacq. unfold job, cycle, try_except. unfold bind at 1. by rewrite Hacq.
Qed.

(** When [acquire] raises (Etherscan raised or returned too few holders,
    and Bitquery is not configured or raised too), the cycle leaves the
    snapshot file as it was; it also leaves the cycle counter as it was and
    posts exactly one message, the error report. *)
Theorem job_acquisition_failure_writes_nothing cfg env w e w1 :
  acquire cfg env w = (Raise e, w1) →
  let w' := (job cfg env w).2 in
  disk w' = disk w
  ∧ state w' = state w
  ∧ ∃ reply,
      outbox w' = app (outbox w)
        [("⚠️ <b>eth_top_monitor error</b>" ++ nl ++ exn_str e, reply)].
Proof.
  intros Hacq. cbn zeta. rewrite (job_when_acquire_raises _ _ _ _ _ Hacq).
  pose proof (acquire_keeps_disk cfg env w) as Hd.
  pose proof (acquire_keeps_state cfg env w) as Hs.
  pose proof (acquire_keeps_outbox cfg env w) as Ho.
  rewrite Hacq in Hd, Hs, Ho. cbn in Hd, Hs, Ho.
  split_and!.
  - rewrite <- Hd. apply (keeps_bind disk); [|intros ?]; eauto with keeps.
  - rewrite <- Hs. apply (keeps_bind state); [|intros ?]; eauto with keeps.
  - rewrite <- Ho. unfold bind, log, send_telegram. cbn.
    destruct (telegram_post env _) as [e'|code body]; cbn; [eauto|].
    unfold try_except, bind, lift. destruct (raise_for_status code); cbn; eauto.
Qed.

End Cycle.

Section Store.
Context `{PyFloat}.


(** [load_snapshot] never raises. *)
Lemma load_snapshot_returns env w : ∃ s, (load_snapshot env w).1 = Ok s.
Proof.
  unfold load_snapshot. destruct (disk w); cbn; eauto.
  destruct (read_fault env); cbn; eauto.
Qed.

End Store.

Section Transport.
Context `{PyFloat}.

(** An HTTP error status is logged and [send_telegram] returns. *)
Lemma send_telegram_http_status env text w code body :
  telegram_post env (length (outbox w)) = TgResponse code body →
  let '(r, w') := send_telegram env text w in
  r = Ok tt
  ∧ logs w' = app (logs w)
      [if ((400 <=? code) && (code <? 600))%Z
       then (ERROR, "Telegram send failed: " ++ pretty code ++ " " ++ body)
       else (DEBUG, "Telegram sent")].
Proof.
  intros Hreply. unfold send_telegram. rewrite Hreply.
  unfold try_except, bind, lift, raise_for_status.
  destruct ((400 <=? code) && (code <? 600))%Z; cbn; done.
Qed.

(** C6. On the failing input of the claim, an exception raised by
    [requests.post] itself: [send_telegram] logs nothing and raises that
    exception to its caller. *)
Theorem send_telegram_post_raises env text w e :
  telegram_post env (length (outbox w)) = TgRaise e →
  let '(r, w') := send_telegram env text w in
  r = Raise e ∧ logs w' = logs w.
Proof.
  intros Hreply. unfold send_telegram. by rewrite Hreply.
Qed.

End Transport.

Section Sorting.
Context {A : Type} (key : A → Z).

Lemma insert_by_Permutation x l : insert_by key x l ≡ₚ x :: l.
Proof.
  induction l as [|y l IH]; cbn; [done|].
  destruct (key x <=? key y)%Z; [done|].
  rewrite IH. apply Permutation_swap.
Qed.

Lemma sorted_Permutation l : sorted key l ≡ₚ l.
Proof.
  induction l as [|x l IH]; cbn; [done|].
  by rewrite insert_by_Permutation, IH.
Qed.

Lemma insert_by_ascending x l : ascending key l → ascending key (insert_by key x l).
Proof.
  unfold ascending. induction 1 as [|y l Hl IH Hy]; cbn.
  - repeat constructor.
  - destruct (key x <=? key y)%Z eqn:E.
    + apply Z.leb_le in E. constructor; [by constructor|].
      constructor; [done|]. eapply Forall_impl; [exact Hy|].
      cbn. intros z Hz. lia.
    + apply Z.leb_gt in E. constructor; [done|].
      rewrite insert_by_Permutation. constructor; [lia | done].
Qed.

Lemma sorted_ascending l : ascending key (sorted key l).
Proof.
  induction l as [|x l IH]; cbn; [constructor|].
  by apply insert_by_ascending.
Qed.

Lemma ascending_sublist l1 l2 : l1 `sublist_of` l2 → ascending key l2 → ascending key l1.
Proof.
  unfold ascending. induction 1 as [|x l1 l2 Hsub IH|x l1 l2 Hsub IH]; intros Hl2.
  - constructor.
  - apply StronglySorted_inv in Hl2 as [Hl2 Hx]. constructor; [auto|].
    apply Forall_forall. intros y Hy. rewrite Forall_forall in Hx.
    apply Hx. by eapply elem_of_sublist.
  - apply StronglySorted_inv in Hl2 as [Hl2 _]. auto.
Qed.

End Sorting.

Section MoreSorting.
Context {A : Type} (key : A → Z).

Lemma insert_by_filter x l k :
  filter (λ y, key y = k) (insert_by key x l) = filter (λ y, key y = k) (x :: l).
Proof.
  induction l as [|y l IH]; cbn; [done|].
  destruct (key x <=? key y)%Z eqn:E; [done|]. apply Z.leb_gt in E.
  rewrite filter_cons, IH, !filter_cons.
  destruct (decide (key y = k)), (decide (key x = k)); try done. lia.
Qed.

(** The sort is stable. *)
Lemma sorted_stable l k :
  filter (λ y, key y = k) (sorted key l) = filter (λ y, key y = k) l.
Proof.
  induction l as [|x l IH]; cbn; [done|].
  by rewrite insert_by_filter, !filter_cons, IH.
Qed.

Lemma sorted_id l : ascending key l → sorted key l = l.
Proof.
  unfold ascending. induction 1 as [|x l Hl IH Hx]; cbn; [done|].
  rewrite IH. destruct Hx as [|y l' Hy _]; cbn; [done|].
  by rewrite (proj2 (Z.leb_le _ _) Hy).
Qed.

Lemma ascendingb_true l : ascendingb key l = true → ascending key l.
Proof.
  unfold ascending. induction l as [|x l IH]; cbn; [constructor|].
  intros Hb. apply andb_prop in Hb as [Hx Hl]. constructor; [auto|].
  apply Forall_forall. intros y Hy.
  rewrite forallb_forall in Hx. apply Z.leb_le, Hx. by apply list_elem_of_In.
Qed.

End MoreSorting.

Section Acquisition.
Context `{PyFloat}.

Lemma parse_sorted html parsed :
  parse_etherscan_accounts_page html = Ok parsed →
  ascending rank parsed ∧ (length parsed ≤ 100)%nat.
Proof.
  unfold parse_etherscan_accounts_page.
  destruct (find _ _); [|done]. intros [= <-]. split.
  - eapply ascending_sublist; [apply sublist_take | apply sorted_ascending].
  - rewrite length_take. lia.
Qed.

Lemma existsb_address_false (holders : list Holder) h :
  existsb (λ other, bool_decide (address other = address h)) holders = false →
  address h ∉ address <$> holders.
Proof.
  intros Hex Hin. apply list_elem_of_fmap in Hin as (other & Heq & Hin).
  assert (existsb (λ other, bool_decide (address other = address h)) holders = true)
    as Htrue; [|congruence].
  apply existsb_exists. exists other. split.
  - by apply list_elem_of_In.
  - by apply bool_decide_eq_true.
Qed.

(** One page's worth of the dedup loop: what it appends is a part of
    [parsed], in the order of [parsed]. *)
Lemma add_new_spec parsed : ∀ holders,
  ∃ seg, add_new holders parsed = app holders seg
       ∧ seg `sublist_of` parsed
       ∧ ((length holders ≤ 100)%nat → (length (add_new holders parsed) ≤ 100)%nat)
       ∧ (NoDup (address <$> holders) → NoDup (address <$> add_new holders parsed)).
Proof.
  induction parsed as [|h parsed IH]; intros holders; cbn -[Nat.leb].
  - exists []. rewrite app_nil_r. split_and!; auto.
  - destruct (100 <=? length holders)%nat eqn:E100.
    { exists []. rewrite app_nil_r. split_and!; auto. apply sublist_nil_l. }
    apply Nat.leb_gt in E100.
    destruct (existsb _ holders) eqn:Ex.
    + destruct (IH holders) as (seg & -> & Hsub & Hlen & Hnd).
      exists seg. split_and!; auto. by constructor.
    + destruct (IH (app holders [h])) as (seg & Heq & Hsub & Hlen & Hnd).
      exists (h :: seg). rewrite Heq in *. rewrite <- app_assoc in *. cbn in *.
      split_and!; auto.
      * by constructor.
      * intros _. apply Hlen. rewrite length_app. cbn. lia.
      * intros Hno. apply Hnd. rewrite fmap_app. cbn.
        apply NoDup_app. split_and!; [done| |apply NoDup_singleton].
        intros a Ha Hin. apply list_elem_of_singleton in Hin. subst a.
        by apply existsb_address_false in Ex.
Qed.

(** The page loop: each page appends one ascending run. *)
Lemma fetch_pages_spec env : ∀ pages_left page holders hs,
  fetch_pages env pages_left page holders = Ok hs →
  ∃ runs, hs = app holders (concat runs)
        ∧ (length runs ≤ pages_left)%nat
        ∧ Forall (ascending rank) runs
        ∧ ((length holders ≤ 100)%nat → (length hs ≤ 100)%nat)
        ∧ (NoDup (address <$> holders) → NoDup (address <$> hs)).
Proof.
  induction pages_left as [|n IH]; intros page holders hs; cbn -[Nat.ltb].
  - intros [= <-]. exists []. cbn. rewrite app_nil_r. split_and!; auto.
  - destruct (length holders <? 100)%nat;
      [|intros [= <-]; exists []; cbn; rewrite app_nil_r; split_and!; auto with lia].
    match goal with |- match ?ph with _ => _ end = _ → _ => destruct ph as [html|e] end;
      [|done].
    destruct (parse_etherscan_accounts_page html) as [parsed|e] eqn:Hparse; [|done].
    apply parse_sorted in Hparse as [Hasc _].
    destruct (add_new_spec parsed holders) as (seg & Heq & Hsub & Hlen & Hnd).
    intros Hrec. apply IH in Hrec as (runs & -> & Hruns & Hall & Hlen' & Hnd').
    exists (seg :: runs). cbn. rewrite Heq, <- app_assoc in *.
    split_and!; auto with lia.
    constructor; [|done]. by eapply ascending_sublist.
Qed.

Lemma bitquery_holder_rank i item h : bitquery_holder i item = Ok h → rank h = i.
Proof.
  unfold bitquery_holder, res_bind.
  repeat match goal with
         | |- match ?r with _ => _ end = _ → _ => destruct r; [|done]
         end.
  by intros [= <-].
Qed.

Lemma bitquery_holders_ranks items : ∀ i hs,
  bitquery_holders i items = Ok hs →
  length hs = length items ∧ rank <$> hs = seqZ i (Z.of_nat (length hs)).
Proof.
  induction items as [|item items IH]; intros i hs; cbn.
  - by intros [= <-].
  - unfold res_bind.
    destruct (bitquery_holder i item) as [h|] eqn:Hh; [|done].
    destruct (bitquery_holders (i + 1) items) as [hs'|] eqn:Hhs; [|done].
    intros [= <-]. apply IH in Hhs as [Hlen Hranks].
    apply bitquery_holder_rank in Hh. cbn. split; [by rewrite Hlen|].
    rewrite seqZ_cons by lia. rewrite Hh, Hranks. f_equal.
    f_equal; lia.
Qed.

Lemma seqZ_ranks_ascending (hs : list Holder) : ∀ i,
  rank <$> hs = seqZ i (Z.of_nat (length hs)) →
  Forall (λ h, (i ≤ rank h)%Z) hs ∧ ascending rank hs.
Proof.
  unfold ascending. induction hs as [|h hs IH]; intros i; cbn [length fmap list_fmap].
  - intros _. split; constructor.
  - rewrite seqZ_cons by lia. intros [= Hh Hhs].
    replace (Z.pred (Z.of_nat (S (length hs)))) with (Z.of_nat (length hs)) in Hhs by lia.
    apply IH in Hhs as [Hall Hsorted]. split.
    + constructor; [lia|]. eapply Forall_impl; [exact Hall|]. cbn. intros; lia.
    + constructor; [done|]. eapply Forall_impl; [exact Hall|]. cbn. intros; lia.
Qed.

(** C7 (amended). A successful Etherscan fetch returns at most 100 holders
    with pairwise distinct addresses, made of at most one run per page
    fetched, each run in ascending order of rank. A successful Bitquery
    fetch returns one holder per item of the answer, however many, with the
    ranks 1, 2, ..., k in this order, hence in ascending order of rank. *)
Theorem acquisition_shape :
  (∀ env pages_needed hs,
     fetch_top_from_etherscan env pages_needed = Ok hs →
     (length hs ≤ 100)%nat
     ∧ NoDup (address <$> hs)
     ∧ ∃ runs, hs = concat runs
             ∧ (length runs ≤ Z.to_nat pages_needed)%nat
             ∧ Forall (ascending rank) runs)
  ∧ (∀ cfg env limit hs,
       fetch_top_with_bitquery cfg env limit = Ok hs →
       rank <$> hs = seqZ 1 (Z.of_nat (length hs))
       ∧ ascending rank hs
       ∧ ∀ status body items,
           bitquery_post env = BqResponse status (Ok body) →
           res_bind (py_get body "data" (JDict [])) (λ d,
             res_bind (py_get d "ethereum" (JDict [])) (λ eth,
               res_bind (py_get eth "balances" (JList [])) py_iter)) = Ok items →
           length hs = length items).
Proof.
  split.
  - intros env pages hs. unfold fetch_top_from_etherscan.
    destruct (fetch_pages _ _ _ _) as [holders|e] eqn:Hfetch; [|done].
    intros [= <-].
    apply fetch_pages_spec in Hfetch as (runs & -> & Hruns & Hall & Hlen & Hnd).
    cbn in *. rewrite take_ge by (apply Hlen; lia).
    split_and!; [apply Hlen; lia | apply Hnd; constructor | eauto].
  - intros cfg env limit hs. unfold fetch_top_with_bitquery.
    case_decide; [done|].
    destruct (bitquery_post env) as [e|status body]; [done|].
    unfold res_bind at 1. destruct (raise_for_status status); [|done].
    unfold res_bind at 1. destruct body as [data|]; [|done].
    intros Hhs.
    assert (∃ items,
      res_bind (py_get data "data" (JDict [])) (λ d,
        res_bind (py_get d "ethereum" (JDict [])) (λ eth,
          res_bind (py_get eth "balances" (JList [])) py_iter)) = Ok items
      ∧ bitquery_holders 1 items = Ok hs) as (items & Hitems & Hrun).
    { unfold res_bind in *.
      destruct (py_get data "data" _) as [d|]; [|done].
      destruct (py_get d "ethereum" _) as [eth|]; [|done].
      destruct (py_get eth "balances" _) as [balances|]; [|done].
      destruct (py_iter balances) as [items|]; [|done]. eauto. }
    apply bitquery_holders_ranks in Hrun as [Hlen Hranks].
    split_and!; [done | by eapply seqZ_ranks_ascending |].
    intros status' body' items' [= _ <-]. rewrite Hitems. by intros [= <-].
Qed.

End Acquisition.

Section Report.
Context `{PyFloat}.

Lemma StronglySorted_lookup_lt {A} (R : A → A → Prop) (l : list A) :
  StronglySorted R l →
  ∀ i j x y, l !! i = Some x → l !! j = Some y → (i < j)%nat → R x y.
Proof.
  induction 1 as [|z l Hl IH Hz]; intros i j x y Hi Hj Hlt.
  - by rewrite lookup_nil in Hi.
  - destruct j as [|j]; [lia|]. cbn in Hj. destruct i as [|i]; cbn in Hi.
    + injection Hi as <-. rewrite Forall_forall in Hz. apply Hz.
      by eapply list_elem_of_lookup_2.
    + eapply IH; eauto with lia.
Qed.

(** C8 (amended). The report lists the rank changes in ascending order of
    [old_rank - new_rank], equal values in the order of the diff: the lines
    after the title of the block are those of a rearrangement of the diff's
    records that is ascending in that value and keeps, among the records of
    one value, the order they have in the diff. In it every holder that
    lost places comes before every holder that gained places, so the
    largest upward jumps come last. For the old snapshot A:1, B:2, C:3 and
    the new snapshot B:1, A:2, D:3 the order is (A,1,2), (B,2,1), in
    whatever order the diff visited the two addresses. *)
Theorem rank_changes_order :
  (∀ rank_changes,
     let out := sorted_rank_changes rank_changes in
     out ≡ₚ rank_changes
     ∧ ascending rank_change_key out
     ∧ (∀ d, filter (λ x, rank_change_key x = d) out
             = filter (λ x, rank_change_key x = d) rank_changes)
     ∧ (∀ i j a oa na b ob nb,
          out !! i = Some (a, oa, na) → out !! j = Some (b, ob, nb) →
          (oa < na)%Z → (nb < ob)%Z → (i < j)%nat)
     ∧ (∀ new_entries removed, rank_changes ≠ [] →
          ∃ before,
            change_messages rank_changes new_entries removed
            = app before ((nl ++ "<b>🔀 Rank changes:</b>") :: (rank_change_line <$> out))))
  ∧ (∀ (q : pyfloat) (d : string),
       let e r := mkEntry r q d in
       let old : gmap string entry := {[ "A" := e 1; "B" := e 2; "C" := e 3 ]} in
       let new : gmap string entry := {[ "B" := e 1; "A" := e 2; "D" := e 3 ]} in
       ∀ visited, visited ≡ₚ (compare_snapshots old new).1.1 →
         sorted_rank_changes visited = [("A", 1, 2); ("B", 2, 1)]).
Proof.
  split.
  - intros rc out. subst out. unfold sorted_rank_changes.
    split_and!; [apply sorted_Permutation | apply sorted_ascending | | |].
    + intros d. apply (sorted_stable rank_change_key).
    + intros i j a oa na b ob nb Hi Hj Hfell Hrose.
      destruct (decide (i < j)%nat) as [|Hge]; [done|]. exfalso.
      destruct (decide (i = j)) as [->|Hne].
      * rewrite Hi in Hj. injection Hj as -> -> ->. lia.
      * pose proof (StronglySorted_lookup_lt _ _ (sorted_ascending rank_change_key rc)
                      j i _ _ Hj Hi ltac:(lia)) as Hle.
        unfold rank_change_key in Hle. cbn in Hle. lia.
    + intros new_entries removed Hne. unfold change_messages.
      destruct rc as [|x rc]; [done|]. cbn [nonempty].
      eexists. rewrite !app_assoc. reflexivity.
  - intros q d e old new visited Hvisited.
    assert ((compare_snapshots old new).1.1 = [("A", 1, 2); ("B", 2, 1)]) as Heq
      by (vm_compute; reflexivity).
    rewrite Heq in Hvisited. symmetry in Hvisited.
    apply Permutation_length_2_inv in Hvisited as [-> | ->]; reflexivity.
Qed.

End Report.

Section Normalization.
Context `{PyFloat}.






End Normalization.

(** * Further properties *)

Section MoreDiff.
Context `{PyFloat}.
Implicit Types old new : gmap string entry.

Lemma bind_ext_in {A B} (f g : A → list B) (l : list A) :
  (∀ x, x ∈ l → f x = g x) → l ≫= f = l ≫= g.
Proof.
  induction l as [|x l IH]; intros Hfg; cbn; [done|].
  rewrite (Hfg x) by apply list_elem_of_here.
  f_equal. apply IH. intros y Hy. apply Hfg. by apply list_elem_of_further.
Qed.

Lemma bind_nil_all {A B} (f : A → list B) (l : list A) :
  (∀ x, f x = []) → l ≫= f = [].
Proof. intros Hf. induction l as [|x l IH]; cbn; [done|]. by rewrite Hf, IH. Qed.

Lemma fmap_bind_list {A B C} (g : B → C) (f : A → list B) (l : list A) :
  g <$> (l ≫= f) = l ≫= (λ x, g <$> f x).
Proof.
  induction l as [|x l IH]; cbn; [done|]. by rewrite fmap_app, IH.
Qed.

Lemma rank_change_of_same (m : gmap string entry) addr : rank_change_of m m addr = [].
Proof.
  unfold rank_change_of. destruct (m !! addr); [|done]. by rewrite decide_False by auto.
Qed.

(** X1. Diffing a snapshot against itself yields no rank change, no
    entrant and no exit. *)
Theorem compare_snapshots_same (m : gmap string entry) :
  compare_snapshots m m = ([], [], []).
Proof.
  unfold compare_snapshots. cbn zeta.
  rewrite (bind_nil_all (rank_change_of m m)) by apply rank_change_of_same.
  replace (dom m ∖ dom m) with (∅ : gset string).
  - by rewrite elements_empty.
  - symmetry. apply difference_diag_L.
Qed.

Lemma rank_change_of_ranks old old' new new' addr :
  entry_rank <$> old = entry_rank <$> old' →
  entry_rank <$> new = entry_rank <$> new' →
  rank_change_of old new addr = rank_change_of old' new' addr.
Proof.
  intros Ho Hn. unfold rank_change_of.
  assert (entry_rank <$> old !! addr = entry_rank <$> old' !! addr) as Ho'
    by (by rewrite <- !lookup_fmap, Ho).
  assert (entry_rank <$> new !! addr = entry_rank <$> new' !! addr) as Hn'
    by (by rewrite <- !lookup_fmap, Hn).
  destruct (old !! addr) as [o|], (old' !! addr) as [o'|]; try done;
    destruct (new !! addr) as [n|], (new' !! addr) as [n'|]; try done.
  cbn in Ho', Hn'. injection Ho' as ->. injection Hn' as ->. done.
Qed.

Lemma ranked_of_ranks (m m' : gmap string entry) addr :
  entry_rank <$> m = entry_rank <$> m' → ranked_of m addr = ranked_of m' addr.
Proof.
  intros Hm. unfold ranked_of.
  assert (entry_rank <$> m !! addr = entry_rank <$> m' !! addr) as Hm'
    by (by rewrite <- !lookup_fmap, Hm).
  destruct (m !! addr) as [e|], (m' !! addr) as [e'|]; try done.
  cbn in Hm'. by injection Hm' as ->.
Qed.

(** X2. The diff looks at addresses and ranks only: two pairs of snapshots
    with the same ranks under the same addresses, whatever their balances
    and balance texts, have the same rank changes, the same entrants and
    the same exits, each list up to the order in which the addresses are
    visited. *)
Theorem compare_snapshots_ranks_only old old' new new' :
  entry_rank <$> old = entry_rank <$> old' →
  entry_rank <$> new = entry_rank <$> new' →
  let '(rank_changes, new_entries, removed) := compare_snapshots old new in
  let '(rank_changes', new_entries', removed') := compare_snapshots old' new' in
  rank_changes ≡ₚ rank_changes' ∧ new_entries ≡ₚ new_entries' ∧ removed ≡ₚ removed'.
Proof.
  intros Ho Hn. unfold compare_snapshots. cbn zeta.
  assert (dom old = dom old') as <- by (by rewrite <- (dom_fmap_L entry_rank old), Ho, dom_fmap_L).
  assert (dom new = dom new') as <- by (by rewrite <- (dom_fmap_L entry_rank new), Hn, dom_fmap_L).
  split_and!; (erewrite bind_ext_in; [reflexivity|]); intros.
  - by apply rank_change_of_ranks.
  - by apply ranked_of_ranks.
  - by apply ranked_of_ranks.
Qed.

Lemma rank_change_of_flip old new addr :
  rank_change_of new old addr = flip_change <$> rank_change_of old new addr.
Proof.
  unfold rank_change_of.
  destruct (old !! addr) as [o|], (new !! addr) as [n|]; try done.
  destruct (decide (entry_rank o ≠ entry_rank n)) as [Hne|Heq].
  - by rewrite decide_True by auto.
  - by rewrite decide_False by auto.
Qed.

(** X3. Diffing in the other direction turns the entrants into the exits,
    the exits into the entrants, and every rank change around: the three
    lists hold these records, each list up to the order in which the
    addresses are visited. *)
Theorem compare_snapshots_swap old new :
  let '(rank_changes, new_entries, removed) := compare_snapshots old new in
  let '(rank_changes', new_entries', removed') := compare_snapshots new old in
  rank_changes' ≡ₚ flip_change <$> rank_changes
  ∧ new_entries' ≡ₚ removed
  ∧ removed' ≡ₚ new_entries.
Proof.
  unfold compare_snapshots. cbn zeta.
  rewrite fmap_bind_list, (comm_L (∩) (dom old) (dom new)). split_and!; [|done|done].
  erewrite bind_ext_in; [reflexivity|]. intros. apply rank_change_of_flip.
Qed.

Lemma rank_changes_keys_sublist old new (l : list string) :
  (l ≫= rank_change_of old new).*1.*1 `sublist_of` l.
Proof.
  induction l as [|a l IH]; cbn; [constructor|].
  rewrite !fmap_app. unfold rank_change_of at 1.
  destruct (old !! a), (new !! a); cbn; try by constructor.
  case_decide; cbn; by constructor.
Qed.

(** X4. No address occurs twice in a diff: the addresses of the rank
    changes, of the entrants and of the exits, taken together, are pairwise
    distinct. *)
Theorem compare_snapshots_NoDup old new :
  let '(rank_changes, new_entries, removed) := compare_snapshots old new in
  NoDup (app rank_changes.*1.*1 (app new_entries.*1 removed.*1)).
Proof.
  unfold compare_snapshots. cbn zeta.
  rewrite !ranked_of_keys by apply subseteq_difference_l, reflexivity.
  apply NoDup_app. split_and!.
  - apply (sublist_NoDup _ (elements (dom new ∩ dom old)));
      [apply NoDup_elements | apply rank_changes_keys_sublist].
  - intros a Ha Hin.
    pose proof (elem_of_sublist _ _ _ Ha (rank_changes_keys_sublist old new _)) as Hboth.
    apply elem_of_elements, elem_of_intersection in Hboth as [Hn Ho].
    apply elem_of_app in Hin as [Hin|Hin];
      apply elem_of_elements, elem_of_difference in Hin as [_ Hnot]; done.
  - apply NoDup_app. split_and!; [apply NoDup_elements | | apply NoDup_elements].
    intros a Ha Hin.
    apply elem_of_elements, elem_of_difference in Ha as [_ Hnot].
    apply elem_of_elements, elem_of_difference in Hin as [Hin _]. done.
Qed.

End MoreDiff.

Section MoreReport.


Lemma py_len_app a b : PyStr.py_len (a ++ b) = (PyStr.py_len a + PyStr.py_len b)%nat.
Proof.
  induction a as [|c a IH]; [done|].
  change (String c a ++ b) with (String c (a ++ b)).
  cbn [PyStr.py_len]. rewrite IH. by destruct (PyStr.starts_char c).
Qed.

Lemma string_append_assoc (a b c : string) : (a ++ b) ++ c = a ++ (b ++ c).
Proof.
  induction a as [|x a IH]; [done|].
  change (String x a ++ b) with (String x (a ++ b)).
  change (String x (a ++ b) ++ c) with (String x ((a ++ b) ++ c)).
  change (String x a ++ (b ++ c)) with (String x (a ++ (b ++ c))).
  by rewrite IH.
Qed.

Lemma concat_chars_cons w l :
  PyStr.concat_chars (w :: l) = w ++ PyStr.concat_chars l.
Proof. reflexivity. Qed.

Lemma concat_chars_app l1 l2 :
  PyStr.concat_chars (app l1 l2) = PyStr.concat_chars l1 ++ PyStr.concat_chars l2.
Proof.
  induction l1 as [|w l1 IH]; [done|].
  change (app (w :: l1) l2) with (w :: app l1 l2).
  by rewrite !concat_chars_cons, IH, string_append_assoc.
Qed.

(** Every element of [chars s] is one character: a first byte and then
    continuation bytes only. *)
Lemma chars_groups s :
  Forall (λ w, ∃ c r, w = String c r ∧ PyStr.py_len r = 0%nat) (PyStr.chars s).
Proof.
  induction s as [|c s IH]; [constructor|]. cbn [PyStr.chars].
  destruct (PyStr.chars s) as [|w ws]; [repeat constructor; eauto|].
  apply Forall_cons in IH as [(d & r & -> & Hr) Hws].
  destruct (PyStr.starts_char d) eqn:Hd.
  - constructor; [eauto|]. constructor; eauto.
  - constructor; [|done]. exists c, (String d r). split; [done|].
    cbn [PyStr.py_len]. by rewrite Hd.
Qed.

Lemma chars_cons c s :
  PyStr.chars (String c s)
  = match PyStr.chars s with
    | [] => [String c EmptyString]
    | w :: ws =>
        match w with
        | String d _ =>
            if PyStr.starts_char d then String c EmptyString :: w :: ws
            else String c w :: ws
        | EmptyString => String c EmptyString :: ws
        end
    end.
Proof. reflexivity. Qed.

Lemma chars_concat s : PyStr.concat_chars (PyStr.chars s) = s.
Proof.
  induction s as [|c s IH]; [done|]. rewrite chars_cons.
  pose proof (chars_groups s) as Hg.
  destruct (PyStr.chars s) as [|w ws].
  - by rewrite <- IH.
  - apply Forall_cons in Hg as [(d & r & -> & _) _].
    destruct (PyStr.starts_char d); rewrite !concat_chars_cons in *; by rewrite <- IH.
Qed.

Lemma py_len_concat_chars (l : list string) :
  Forall (λ w, ∃ c r, w = String c r ∧ PyStr.py_len r = 0%nat) l →
  (PyStr.py_len (PyStr.concat_chars l) ≤ length l)%nat.
Proof.
  induction 1 as [|w l (c & r & -> & Hr) _ IH]; [done|].
  rewrite concat_chars_cons, py_len_app. cbn [PyStr.py_len length]. rewrite Hr.
  destruct (PyStr.starts_char c); lia.
Qed.

Lemma chunk_list_spec n : (0 < n)%nat → ∀ fuel cs,
  (length cs ≤ fuel)%nat →
  Forall (λ w, ∃ c r, w = String c r ∧ PyStr.py_len r = 0%nat) cs →
  PyStr.concat_chars (PyStr.chunk_list fuel n cs) = PyStr.concat_chars cs
  ∧ Forall (λ ch, (PyStr.py_len ch ≤ n)%nat ∧ ch ≠ EmptyString) (PyStr.chunk_list fuel n cs).
Proof.
  intros Hn. induction fuel as [|fuel IH]; intros cs Hlen Hcs.
  - destruct cs; [by split | cbn in Hlen; lia].
  - destruct cs as [|w cs]; [by split|]. cbn [PyStr.chunk_list].
    destruct (IH (drop n (w :: cs))) as [Hcat Hall].
    { rewrite length_drop. cbn in *. lia. }
    { by apply Forall_drop. }
    split.
    + rewrite concat_chars_cons, Hcat, <- concat_chars_app. by rewrite take_drop.
    + constructor; [|done]. split.
      * etransitivity; [apply py_len_concat_chars; by apply Forall_take|].
        rewrite length_take. lia.
      * destruct n as [|n]; [lia|].
        apply Forall_cons in Hcs as [(c & r & -> & _) _]. done.
Qed.

(** X6. Cutting a text into pieces of [n] characters, [n] positive, loses
    nothing and respects the limit: the pieces put together again are the
    text, no piece has more than [n] characters, and none is empty. *)
Theorem py_chunks_spec (n : nat) (s : string) :
  (0 < n)%nat →
  PyStr.concat_chars (PyStr.py_chunks n s) = s
  ∧ Forall (λ ch, (PyStr.py_len ch ≤ n)%nat ∧ ch ≠ EmptyString) (PyStr.py_chunks n s).
Proof.
  intros Hn. unfold PyStr.py_chunks.
  destruct (chunk_list_spec n Hn (length (PyStr.chars s)) (PyStr.chars s))
    as [Hcat Hall]; [done | apply chars_groups |].
  split; [|done]. by rewrite Hcat, chars_concat.
Qed.

End MoreReport.

Section MoreAcquisition.
Context `{PyFloat}.

Lemma int_of_digits_from_nonneg s : ∀ acc,
  (0 ≤ acc)%Z →
  (0 ≤ PyStr.int_of_digits_from acc (PyStr.filter_chars PyStr.isdigit s))%Z.
Proof.
  induction s as [|c s IH]; intros acc Hacc; [done|].
  cbn [PyStr.filter_chars]. destruct (PyStr.isdigit c) eqn:Hc; [|by apply IH].
  cbn [PyStr.int_of_digits_from]. apply IH.
  unfold PyStr.isdigit in Hc. apply andb_prop in Hc as [Hlo _].
  apply N.leb_le in Hlo. lia.
Qed.

Lemma parse_row_holder cols h :
  parse_row cols = Some h →
  (0 ≤ rank h)%Z ∧ is_Some (address h) ∧ label h = None.
Proof.
  unfold parse_row. destruct cols as [|c0 [|c1 [|c2 more]]]; try done.
  case_decide; [done|].
  destruct (PyStr.first_word _); [|done].
  destruct (float_of_str _); [|done].
  intros [= <-]. cbn. split_and!; [|eauto|done].
  by apply int_of_digits_from_nonneg.
Qed.

Lemma parse_holders html parsed :
  parse_etherscan_accounts_page html = Ok parsed →
  Forall (λ h, (0 ≤ rank h)%Z ∧ is_Some (address h) ∧ label h = None) parsed.
Proof.
  unfold parse_etherscan_accounts_page.
  destruct (find is_accounts_table (soup html)) as [t|]; [|done]. intros [= <-].
  apply Forall_take. rewrite (sorted_Permutation rank).
  apply Forall_forall. intros h Hh.
  apply list_elem_of_omap in Hh as (cols & _ & Hrow). by eapply parse_row_holder.
Qed.

(** X7. Parsing a page raises exactly when no table of the page has a
    header naming a rank and a header naming an address. Otherwise it
    returns, whatever the rows hold: at most 100 holders in ascending order
    of rank, each read from a row of the first such table, each with a rank
    that is not negative, an address and no label. *)
Theorem parse_etherscan_accounts_page_spec (html : response) :
  match find is_accounts_table (soup html) with
  | None =>
      parse_etherscan_accounts_page html
      = Raise (Exn ValueError "Top accounts table not found on etherscan page")
  | Some t =>
      ∃ parsed,
        parse_etherscan_accounts_page html = Ok parsed
        ∧ (length parsed ≤ 100)%nat
        ∧ ascending rank parsed
        ∧ Forall (λ h, (∃ cols, cols ∈ trs t ∧ parse_row cols = Some h)
                       ∧ (0 ≤ rank h)%Z ∧ is_Some (address h) ∧ label h = None) parsed
  end.
Proof.
  unfold parse_etherscan_accounts_page.
  destruct (find is_accounts_table (soup html)) as [t|]; [|done].
  eexists. split; [done|]. split_and!.
  - rewrite length_take. lia.
  - eapply ascending_sublist; [apply sublist_take | apply sorted_ascending].
  - apply Forall_take. rewrite (sorted_Permutation rank).
    apply Forall_forall. intros h Hh.
    apply list_elem_of_omap in Hh as (cols & Hcols & Hrow).
    split; [eauto | by eapply parse_row_holder].
Qed.

(** X8. A table whose rows are already in ascending order of rank, and
    give at most 100 holders, is returned row for row in that order. *)
Theorem parse_in_rank_order (html : response) (t : table) :
  find is_accounts_table (soup html) = Some t →
  ascending rank (omap parse_row (trs t)) →
  (length (omap parse_row (trs t)) ≤ 100)%nat →
  parse_etherscan_accounts_page html = Ok (omap parse_row (trs t)).
Proof.
  intros Ht Hasc Hlen. unfold parse_etherscan_accounts_page. rewrite Ht.
  by rewrite (sorted_id rank) by done; rewrite take_ge.
Qed.

Lemma first_good_constant get r urls :
  (∀ url, get url = HttpResponse r) →
  first_good get urls = None ∨ first_good get urls = Some r.
Proof.
  intros Hget. induction urls as [|u urls IH]; cbn; [by left|]. rewrite Hget.
  destruct (_ && _); [by right | done].
Qed.

Lemma fetch_pages_S env n page holders :
  fetch_pages env (S n) page holders
  = if (length holders <? 100)%nat then
      let fallback :=
        match etherscan_get env page "https://etherscan.io/accounts" with
        | HttpRaise e => Raise e
        | HttpResponse r => Ok r
        end in
      let page_html :=
        match first_good (etherscan_get env page) (try_urls page) with
        | Some r => if decide (text r = EmptyString) then fallback else Ok r
        | None => fallback
        end in
      match page_html with
      | Raise e => Raise e
      | Ok html =>
          match parse_etherscan_accounts_page html with
          | Raise e => Raise e
          | Ok parsed => fetch_pages env n (page + 1) (add_new holders parsed)
          end
      end
    else Ok holders.
Proof. reflexivity. Qed.

(** The page of a loop turn when every request of the turn gets [r]. *)
Lemma fetch_pages_constant_step env r n page holders :
  (∀ url, etherscan_get env page url = HttpResponse r) →
  fetch_pages env (S n) page holders
  = if (length holders <? 100)%nat
    then match parse_etherscan_accounts_page r with
         | Raise e => Raise e
         | Ok parsed => fetch_pages env n (page + 1) (add_new holders parsed)
         end
    else Ok holders.
Proof.
  intros Hget. rewrite fetch_pages_S. destruct (length holders <? 100)%nat; [|done].
  rewrite Hget.
  destruct (first_good_constant (etherscan_get env page) r (try_urls page) Hget)
    as [-> | ->]; [done|].
  by case_decide.
Qed.

Lemma first_good_none_raised get urls :
  (∀ url, url ∈ urls → ∃ e, get url = HttpRaise e) → first_good get urls = None.
Proof.
  induction urls as [|u urls IH]; intros Hget; cbn; [done|].
  destruct (Hget u) as [e ->]; [apply list_elem_of_here|].
  apply IH. intros url Hin. apply Hget. by apply list_elem_of_further.
Qed.

(** X9. How the Etherscan fetch fails. Without a page to fetch it returns
    the empty list. When each of the three guarded requests for the first
    page raises, whatever each raises is passed over, and the exception of
    the fourth, unguarded request, which may be another, leaves the fetch.
    When the first page has no accounts table, the fetch raises the
    parser's [ValueError]. *)
Theorem fetch_top_from_etherscan_failures (env : Env) (pages_needed : Z) :
  ((pages_needed ≤ 0)%Z → fetch_top_from_etherscan env pages_needed = Ok [])
  ∧ (∀ e, (0 < pages_needed)%Z →
       (∀ url, url ∈ try_urls 1 → ∃ e', etherscan_get env 1 url = HttpRaise e') →
       etherscan_get env 1 "https://etherscan.io/accounts" = HttpRaise e →
       fetch_top_from_etherscan env pages_needed = Raise e)
  ∧ (∀ r, (0 < pages_needed)%Z →
       (∀ url, etherscan_get env 1 url = HttpResponse r) →
       find is_accounts_table (soup r) = None →
       fetch_top_from_etherscan env pages_needed
       = Raise (Exn ValueError "Top accounts table not found on etherscan page")).
Proof.
  unfold fetch_top_from_etherscan. split_and!.
  - intros Hle. by replace (Z.to_nat pages_needed) with 0%nat by lia.
  - intros e Hpos Hguarded Hlast.
    destruct (Z.to_nat pages_needed) as [|n] eqn:En; [lia|].
    rewrite fetch_pages_S. change (length [] <? 100)%nat with true. cbn match zeta.
    by rewrite (first_good_none_raised _ _ Hguarded), Hlast.
  - intros r Hpos Hget Hnone.
    destruct (Z.to_nat pages_needed) as [|n] eqn:En; [lia|].
    rewrite (fetch_pages_constant_step env r) by done. cbn.
    unfold parse_etherscan_accounts_page. by rewrite Hnone.
Qed.

Lemma add_new_extends holders parsed a :
  a ∈ address <$> holders → a ∈ address <$> add_new holders parsed.
Proof.
  intros Ha. destruct (add_new_spec parsed holders) as (seg & -> & _).
  rewrite fmap_app. apply elem_of_app. by left.
Qed.

Lemma add_new_length_mono holders parsed :
  (length holders ≤ length (add_new holders parsed))%nat.
Proof.
  destruct (add_new_spec parsed holders) as (seg & -> & _). rewrite length_app. lia.
Qed.

Lemma add_new_absorbs parsed : ∀ holders,
  (100 ≤ length holders)%nat ∨ Forall (λ h, address h ∈ address <$> holders) parsed →
  add_new holders parsed = holders.
Proof.
  induction parsed as [|h parsed IH]; intros holders Hcase; [done|].
  cbn -[Nat.leb]. destruct (100 <=? length holders)%nat eqn:E100; [done|].
  apply Nat.leb_gt in E100. destruct Hcase as [?|Hall]; [lia|].
  apply Forall_cons in Hall as [Hh Hall].
  destruct (existsb _ holders) eqn:Ex; [by apply IH; right|].
  by apply existsb_address_false in Ex.
Qed.

Lemma add_new_covers parsed : ∀ holders,
  (100 ≤ length (add_new holders parsed))%nat
  ∨ Forall (λ h, address h ∈ address <$> add_new holders parsed) parsed.
Proof.
  induction parsed as [|h parsed IH]; intros holders; [by right|].
  cbn -[Nat.leb]. destruct (100 <=? length holders)%nat eqn:E100.
  { left. by apply Nat.leb_le. }
  destruct (existsb _ holders) eqn:Ex.
  - destruct (IH holders) as [?|Hall]; [by left|]. right. constructor; [|done].
    apply add_new_extends. apply existsb_exists in Ex as (other & Hin & Heq).
    apply bool_decide_eq_true in Heq. rewrite <- Heq.
    apply list_elem_of_fmap_2. by apply list_elem_of_In.
  - destruct (IH (app holders [h])) as [?|Hall]; [by left|]. right. constructor; [|done].
    apply add_new_extends. rewrite fmap_app. apply elem_of_app. right.
    apply list_elem_of_singleton. done.
Qed.

Lemma add_new_idempotent holders parsed :
  add_new (add_new holders parsed) parsed = add_new holders parsed.
Proof. apply add_new_absorbs, add_new_covers. Qed.

Lemma fetch_pages_settled env r parsed :
  (∀ page url, etherscan_get env page url = HttpResponse r) →
  parse_etherscan_accounts_page r = Ok parsed →
  ∀ n page holders,
    fetch_pages env n page (add_new holders parsed) = Ok (add_new holders parsed).
Proof.
  intros Hget Hparse. induction n as [|n IH]; intros page holders; [done|].
  rewrite (fetch_pages_constant_step env r) by done.
  destruct (_ <? 100)%nat; [|done]. by rewrite Hparse, add_new_idempotent.
Qed.

(** X10. Holders already collected are not added again: running the dedup
    loop a second time over the same page changes nothing. So when
    Etherscan answers every request with the same page, as when only its
    unnumbered first page can be fetched, the fetch over any number of
    pages returns what the fetch of one page returns. *)
Theorem fetch_same_page_again (env : Env) (r : response) (pages_needed : Z) :
  (∀ holders parsed, add_new (add_new holders parsed) parsed = add_new holders parsed)
  ∧ ((∀ page url, etherscan_get env page url = HttpResponse r) →
     (0 < pages_needed)%Z →
     fetch_top_from_etherscan env pages_needed = fetch_top_from_etherscan env 1).
Proof.
  split; [apply add_new_idempotent|]. intros Hget Hpos.
  unfold fetch_top_from_etherscan.
  destruct (Z.to_nat pages_needed) as [|n] eqn:En; [lia|].
  change (Z.to_nat 1) with 1%nat.
  rewrite !(fetch_pages_constant_step env r) by done.
  change (length [] <? 100)%nat with true. cbn match.
  destruct (parse_etherscan_accounts_page r) as [parsed|e] eqn:Hparse; [|done].
  by rewrite (fetch_pages_settled env r parsed Hget Hparse).
Qed.

Lemma fetch_pages_Forall env (P : Holder → Prop) :
  (∀ html parsed, parse_etherscan_accounts_page html = Ok parsed → Forall P parsed) →
  ∀ n page holders hs,
    Forall P holders → fetch_pages env n page holders = Ok hs → Forall P hs.
Proof.
  intros Hparse. induction n as [|n IH]; intros page holders hs Hholders;
    cbn -[Nat.ltb]; [by intros [= <-]|].
  destruct (length holders <? 100)%nat; [|by intros [= <-]].
  match goal with |- match ?ph with _ => _ end = _ → _ => destruct ph as [html|e] end;
    [|done].
  destruct (parse_etherscan_accounts_page html) as [parsed|e] eqn:Hp; [|done].
  apply IH. destruct (add_new_spec parsed holders) as (seg & -> & Hsub & _).
  apply Forall_app. split; [done|].
  apply Hparse in Hp. rewrite Forall_forall in Hp. apply Forall_forall.
  intros h Hh. apply Hp. by eapply elem_of_sublist.
Qed.

Lemma holders_to_map_from_ok hs : ∀ m,
  is_ok (holders_to_map_from m hs)
  = forallb (λ h, bool_decide (is_Some (address h))) hs.
Proof.
  induction hs as [|h hs IH]; intros m; cbn; [done|].
  destruct (address h) as [a|] eqn:Ha; cbn; [apply IH | done].
Qed.

(** X11. Every holder of a successful Etherscan fetch has a rank that is
    not negative, an address and no label; such a list never makes
    [holders_to_map] raise. *)
Theorem etherscan_holders_map (env : Env) (pages_needed : Z) (hs : list Holder) :
  fetch_top_from_etherscan env pages_needed = Ok hs →
  Forall (λ h, (0 ≤ rank h)%Z ∧ is_Some (address h) ∧ label h = None) hs
  ∧ is_ok (holders_to_map hs) = true.
Proof.
  unfold fetch_top_from_etherscan.
  destruct (fetch_pages _ _ _ _) as [holders|] eqn:Hfetch; [|done]. intros [= <-].
  assert (Forall (λ h, (0 ≤ rank h)%Z ∧ is_Some (address h) ∧ label h = None)
            (take 100 holders)) as Hall.
  { apply Forall_take.
    eapply (fetch_pages_Forall env); [|constructor|exact Hfetch].
    apply parse_holders. }
  split; [done|]. unfold holders_to_map. rewrite holders_to_map_from_ok.
  apply Is_true_eq_true, forallb_True. eapply Forall_impl; [exact Hall|].
  cbn. intros h (_ & Ha & _). by apply bool_decide_pack.
Qed.

End MoreAcquisition.

Section MoreBitquery.
Context `{PyFloat}.

(** X12. How the Bitquery fetch fails, and when it returns nothing. With
    no key it raises before any request. With a key it raises what the
    request raises, an [HTTPError] on a status from 400 to 599, and what
    decoding the body raises. A body that is an object without ["data"]
    gives the empty list, and one whose ["data"] is null an
    [AttributeError]. *)
Theorem fetch_top_with_bitquery_failures (cfg : Config) (env : Env) (limit : Z) :
  (BITQUERY_API_KEY cfg = EmptyString →
   fetch_top_with_bitquery cfg env limit
   = Raise (Exn ValueError "No BITQUERY_API_KEY configured"))
  ∧ (BITQUERY_API_KEY cfg ≠ EmptyString →
     (∀ e, bitquery_post env = BqRaise e → fetch_top_with_bitquery cfg env limit = Raise e)
     ∧ (∀ status body, bitquery_post env = BqResponse status body →
          (400 ≤ status < 600)%Z →
          ∃ e, fetch_top_with_bitquery cfg env limit = Raise e
               ∧ exn_kind_of e = HTTPError)
     ∧ (∀ status e, bitquery_post env = BqResponse status (Raise e) →
          ¬ (400 ≤ status < 600)%Z →
          fetch_top_with_bitquery cfg env limit = Raise e)
     ∧ (∀ status kv, bitquery_post env = BqResponse status (Ok (JDict kv)) →
          ¬ (400 ≤ status < 600)%Z →
          (assoc "data" kv = None → fetch_top_with_bitquery cfg env limit = Ok [])
          ∧ (assoc "data" kv = Some JNull →
             fetch_top_with_bitquery cfg env limit
             = Raise (no_attribute "NoneType" "get")))).
Proof.
  unfold fetch_top_with_bitquery. split.
  - intros ->. done.
  - intros Hkey. rewrite decide_False by done. split_and!.
    + by intros e ->.
    + intros status body -> [Hlo Hhi]. unfold res_bind, raise_for_status.
      apply Z.leb_le in Hlo. apply Z.ltb_lt in Hhi. rewrite Hlo, Hhi. cbn. eauto.
    + intros status e -> Hno. unfold res_bind at 1, raise_for_status.
      destruct ((400 <=? status) && (status <? 600))%Z eqn:E; [|done].
      apply andb_prop in E as [Hlo Hhi]. apply Z.leb_le in Hlo. apply Z.ltb_lt in Hhi.
      lia.
    + intros status kv -> Hno. unfold res_bind at 1, raise_for_status.
      destruct ((400 <=? status) && (status <? 600))%Z eqn:E.
      { apply andb_prop in E as [Hlo Hhi]. apply Z.leb_le in Hlo. apply Z.ltb_lt in Hhi.
        lia. }
      split; intros Hdata; cbn; by rewrite Hdata.
Qed.

End MoreBitquery.

Section MoreMap.
Context `{PyFloat}.

Lemma holders_to_map_from_lookup hs : ∀ m0 m k,
  holders_to_map_from m0 hs = Ok m →
  m !! k = match last (filter (λ h, PyStr.lower <$> address h = Some k) hs) with
           | Some h => Some (holder_entry h)
           | None => m0 !! k
           end.
Proof.
  induction hs as [|h hs IH]; intros m0 m k; [by intros [= <-]|].
  cbn [holders_to_map_from]. destruct (address h) as [a|] eqn:Ha; [|done].
  intros Hm. rewrite (IH _ _ k Hm), filter_cons.
  destruct (decide (PyStr.lower <$> address h = Some k)) as [Hk|Hk].
  - rewrite last_cons. destruct (last _); [done|].
    rewrite Ha in Hk. injection Hk as <-. by rewrite lookup_insert_eq.
  - destruct (last _); [done|]. apply lookup_insert_ne.
    intros <-. apply Hk. by rewrite Ha.
Qed.

Lemma holders_to_map_from_size hs : ∀ m0 m,
  holders_to_map_from m0 hs = Ok m → (size m ≤ size m0 + length hs)%nat.
Proof.
  induction hs as [|h hs IH]; intros m0 m; [intros [= <-]; cbn; lia|].
  cbn [holders_to_map_from]. destruct (address h) as [a|]; [|done].
  intros Hm. apply IH in Hm. rewrite map_size_insert in Hm.
  cbn [length]. destruct (m0 !! _); cbn in Hm; lia.
Qed.

(** X13. [holders_to_map] raises exactly when a holder has no address.
    Otherwise the map has at most as many entries as there are holders, and
    under each key it holds the record of the last holder whose address
    lower-cases to that key, and nothing under any other key. *)
Theorem holders_to_map_spec (hs : list Holder) :
  is_ok (holders_to_map hs) = forallb (λ h, bool_decide (is_Some (address h))) hs
  ∧ ∀ m, holders_to_map hs = Ok m →
      (size m ≤ length hs)%nat
      ∧ ∀ k, m !! k
             = holder_entry
               <$> last (filter (λ h, PyStr.lower <$> address h = Some k) hs).
Proof.
  split; [apply holders_to_map_from_ok|]. intros m Hm. split.
  - apply holders_to_map_from_size in Hm. by rewrite map_size_empty in Hm.
  - intros k. rewrite (holders_to_map_from_lookup _ _ _ k Hm).
    by destruct (last _).
Qed.

End MoreMap.

Section MoreCycle.
Context `{PyFloat}.

Lemma report_and_save_steps cfg env holders w :
  report_and_save cfg env holders w
  = bind (lift (holders_to_map holders)) (λ new_map,
      bind (load_snapshot env) (λ old_snapshot,
        bind (report_changes env (default ∅ (holders_map old_snapshot)) new_map) (λ _,
          count_and_save cfg env holders new_map))) w.
Proof.
  unfold report_and_save, report_changes, count_and_save, listing_due, bind, lift.
  destruct (holders_to_map holders) as [new_map|]; [|done].
  destruct (load_snapshot env w) as [[old_snapshot|] w1]; [|done].
  destruct (compare_snapshots _ new_map) as [[rank_changes new_entries] removed].
  reflexivity.
Qed.

(** *** What is posted *)

Lemma posts_of_keeps {A} P (m : M A) : keeps outbox m → posts_only P m.
Proof. intros Hk w. exists []. by rewrite Hk, app_nil_r. Qed.

Lemma posts_bind {A B} P (m : M A) (k : A → M B) :
  posts_only P m → (∀ a, posts_only P (k a)) → posts_only P (bind m k).
Proof.
  intros Hm Hk w. unfold bind. destruct (Hm w) as (new1 & Ho1 & Hall1).
  destruct (m w) as [[a|e] w1]; cbn in *; [|eauto].
  destruct (Hk a w1) as (new2 & Ho2 & Hall2).
  exists (app new1 new2). rewrite Ho2, Ho1, app_assoc. split; [done|].
  by apply Forall_app.
Qed.

Lemma posts_for_each {A} P (l : list A) (body : A → M unit) :
  Forall (λ x, posts_only P (body x)) l → posts_only P (for_each l body).
Proof.
  induction 1 as [|x l Hx _ IH]; cbn [for_each].
  - apply posts_of_keeps. by intros w.
  - by apply posts_bind.
Qed.

Lemma posts_send_telegram (P : string → Prop) env text :
  P text → posts_only P (send_telegram env text).
Proof.
  intros HP w. exists [(text, telegram_post env (length (outbox w)))].
  split; [|by repeat constructor]. unfold send_telegram.
  destruct (telegram_post env _) as [e|code body]; [done|].
  unfold try_except, bind, lift. by destruct (raise_for_status code).
Qed.

Lemma load_snapshot_keeps {B} (f : World → B) env :
  (∀ w l, f (mkWorld (disk w) (state w) (outbox w) l) = f w) →
  keeps f (load_snapshot env).
Proof.
  intros Hf w. unfold load_snapshot.
  destruct (disk w) eqn:E; [done | destruct (read_fault env); [|done] | |];
    cbn; apply Hf.
Qed.

Lemma py_chunks_parts (n : nat) (s : string) :
  (0 < n)%nat →
  PyStr.concat_chars (PyStr.py_chunks n s) = s
  ∧ Forall (λ ch, (PyStr.py_len ch ≤ n)%nat ∧ ch ≠ EmptyString) (PyStr.py_chunks n s).
Proof.
  intros Hn. unfold PyStr.py_chunks.
  destruct (chunk_list_spec n Hn (length (PyStr.chars s)) (PyStr.chars s))
    as [Hcat Hall]; [done | apply chars_groups |].
  split; [|done]. by rewrite Hcat, chars_concat.
Qed.

Lemma posts_chunks env (n limit : nat) (s : string) :
  (0 < n ≤ limit)%nat →
  posts_only (λ t, (PyStr.py_len t ≤ limit)%nat)
    (for_each (PyStr.py_chunks n s) (send_telegram env)).
Proof.
  intros [Hn Hlimit]. apply posts_for_each.
  destruct (py_chunks_parts n s Hn) as [_ Hall].
  eapply Forall_impl; [exact Hall|]. cbn. intros ch [Hlen _].
  apply posts_send_telegram. lia.
Qed.

Lemma posts_report_changes env old_map new_map :
  posts_only (λ t, (PyStr.py_len t ≤ 3800)%nat) (report_changes env old_map new_map).
Proof.
  unfold report_changes.
  destruct (compare_snapshots old_map new_map) as [[rank_changes new_entries] removed].
  destruct (_ || _); [|apply posts_of_keeps, log_keeps_outbox]. cbn zeta.
  destruct (3800 <? _)%nat eqn:E.
  - apply posts_chunks. lia.
  - apply posts_send_telegram. apply Nat.ltb_ge in E. lia.
Qed.

Lemma posts_count_and_save cfg env holders new_map :
  posts_only (λ t, (PyStr.py_len t ≤ 3800)%nat) (count_and_save cfg env holders new_map).
Proof.
  unfold count_and_save.
  apply posts_bind; [apply posts_of_keeps; by intros w | intros n].
  apply posts_bind; [apply posts_of_keeps; by intros w | intros _].
  apply posts_bind; [apply posts_of_keeps; by intros w | intros polls_done].
  apply posts_bind; [|intros _].
  - destruct (listing_due cfg polls_done); [apply posts_chunks; lia|].
    apply posts_of_keeps. by intros w.
  - apply posts_of_keeps. intros w. unfold save_snapshot.
    by destruct (write_fault env) as [[|]|].
Qed.

(** X14. The statements inside the [try] of [job] only add to what was
    posted before, and no text they post has more than 3800 characters:
    not the change report, sent whole or in pieces of 3500, and not the
    full listing, sent in pieces of 3800. *)
Theorem cycle_posts_within_limit (cfg : Config) (env : Env) (w : World) :
  ∃ new,
    outbox (cycle cfg env w).2 = app (outbox w) new
    ∧ Forall (λ p, (PyStr.py_len p.1 ≤ 3800)%nat) new.
Proof.
  revert w. change (posts_only (λ t, (PyStr.py_len t ≤ 3800)%nat) (cycle cfg env)).
  unfold cycle. apply posts_bind; [apply posts_of_keeps, acquire_keeps_outbox|].
  intros holders w. rewrite report_and_save_steps. revert w.
  change (posts_only (λ t, (PyStr.py_len t ≤ 3800)%nat)
            (bind (lift (holders_to_map holders)) (λ new_map,
               bind (load_snapshot env) (λ old_snapshot,
                 bind (report_changes env (default ∅ (holders_map old_snapshot)) new_map)
                   (λ _, count_and_save cfg env holders new_map))))).
  apply posts_bind; [apply posts_of_keeps; by intros w | intros new_map].
  apply posts_bind; [apply posts_of_keeps, load_snapshot_keeps; done | intros old].
  apply posts_bind; [apply posts_report_changes | intros _].
  apply posts_count_and_save.
Qed.

End MoreCycle.

Section MoreJob.
Context `{PyFloat}.

Lemma send_telegram_ok env text w code body :
  telegram_post env (length (outbox w)) = TgResponse code body →
  (send_telegram env text w).1 = Ok tt.
Proof.
  intros Hreply. unfold send_telegram. rewrite Hreply.
  unfold try_except, bind, lift. by destruct (raise_for_status code).
Qed.


(** X16. [job] is a fault barrier as far as Telegram lets it be: if every
    post gets an HTTP answer, of whatever status, [job] returns normally,
    whatever Etherscan, Bitquery and the file system do. *)
Theorem job_returns_when_telegram_answers cfg env w :
  (∀ n, ∃ code body, telegram_post env n = TgResponse code body) →
  (job cfg env w).1 = Ok tt.
Proof.
  intros Hanswer. unfold job, try_except.
  destruct (cycle cfg env w) as [[[]|e] w1]; [done|].
  unfold bind, log. cbn.
  match goal with |- (send_telegram _ _ ?w2).1 = _ =>
    destruct (Hanswer (length (outbox w2))) as (code & body & Hreply);
    by rewrite (send_telegram_ok _ _ _ _ _ Hreply)
  end.
Qed.

(** *** The snapshot file *)

Lemma writes_of_keeps {A} (m : M A) : keeps disk m → writes_only_on_return m.
Proof. intros Hk w _. apply Hk. Qed.

Lemma writes_bind {A B} (m : M A) (k : A → M B) :
  keeps disk m → (∀ a, writes_only_on_return (k a)) →
  writes_only_on_return (bind m k).
Proof.
  intros Hm Hk w. unfold bind. specialize (Hm w).
  destruct (m w) as [[a|e] w1]; cbn in *; [|done].
  intros Hfail. by rewrite Hk.
Qed.

Lemma report_changes_keeps_disk env old_map new_map :
  keeps disk (report_changes env old_map new_map).
Proof.
  unfold report_changes.
  destruct (compare_snapshots old_map new_map) as [[rank_changes new_entries] removed].
  destruct (_ || _); [|apply log_keeps_disk]. cbn zeta.
  destruct (_ <? _)%nat; [apply keeps_for_each; intros; apply send_telegram_keeps_disk|].
  apply send_telegram_keeps_disk.
Qed.

Lemma report_changes_keeps_state env old_map new_map :
  keeps state (report_changes env old_map new_map).
Proof.
  unfold report_changes.
  destruct (compare_snapshots old_map new_map) as [[rank_changes new_entries] removed].
  destruct (_ || _); [|apply log_keeps_state]. cbn zeta.
  destruct (_ <? _)%nat; [apply keeps_for_each; intros; apply send_telegram_keeps_state|].
  apply send_telegram_keeps_state.
Qed.

Lemma send_listing_keeps {B} (f : World → B) cfg env holders n :
  (∀ text, keeps f (send_telegram env text)) →
  keeps f (if listing_due cfg n
           then for_each (PyStr.py_chunks 3800 (full_listing holders)) (send_telegram env)
           else ret tt).
Proof.
  intros Hsend. destruct (listing_due cfg n); [by apply keeps_for_each | by intros w].
Qed.

Lemma save_snapshot_result env snap w :
  (save_snapshot env snap w).1 = Ok tt
  ∧ disk (save_snapshot env snap w).2 = saved env snap (disk w)
  ∧ state (save_snapshot env snap w).2 = state w
  ∧ outbox (save_snapshot env snap w).2 = outbox w.
Proof. unfold save_snapshot, saved. by destruct (write_fault env) as [[|]|]. Qed.

Lemma count_and_save_writes cfg env holders new_map :
  writes_only_on_return (count_and_save cfg env holders new_map).
Proof.
  unfold count_and_save.
  apply writes_bind; [by intros w | intros n].
  apply writes_bind; [by intros w | intros _].
  apply writes_bind; [by intros w | intros polls_done].
  apply writes_bind; [apply send_listing_keeps, send_telegram_keeps_disk | intros _].
  intros w Hfail. by rewrite (proj1 (save_snapshot_result env _ w)) in Hfail.
Qed.

Lemma cycle_writes_only_on_return cfg env : writes_only_on_return (cycle cfg env).
Proof.
  unfold cycle. apply writes_bind; [apply acquire_keeps_disk|]. intros holders w.
  rewrite report_and_save_steps. revert w.
  apply (writes_bind (lift (holders_to_map holders))); [by intros w | intros new_map].
  apply writes_bind; [apply load_snapshot_keeps_disk | intros old].
  apply writes_bind; [apply report_changes_keeps_disk | intros _].
  apply count_and_save_writes.
Qed.

(** X17. A cycle that fails, at whatever statement, writes no snapshot:
    when the body of the [try] of [job] raises, the snapshot file after
    [job] is the file before it. *)
Theorem failed_cycle_writes_nothing cfg env w :
  is_ok (cycle cfg env w).1 = false →
  disk (job cfg env w).2 = disk w.
Proof.
  intros Hfail. pose proof (cycle_writes_only_on_return cfg env w Hfail) as Hdisk.
  unfold job, try_except. destruct (cycle cfg env w) as [[[]|e] w1]; [done|].
  cbn in Hdisk. rewrite <- Hdisk.
  apply (keeps_bind disk); [apply log_keeps_disk | intros _; apply send_telegram_keeps_disk].
Qed.

Lemma bind_ok {A B} (m : M A) (k : A → M B) w :
  is_ok (bind m k w).1 = true →
  ∃ a w1, m w = (Ok a, w1) ∧ bind m k w = k a w1.
Proof.
  unfold bind. destruct (m w) as [[a|e] w1]; [eauto | done].
Qed.

Lemma count_and_save_disk cfg env holders new_map w :
  is_ok (count_and_save cfg env holders new_map w).1 = true →
  disk (count_and_save cfg env holders new_map w).2
  = saved env (mkSnapshot (Some (clock env)) (Some new_map)) (disk w).
Proof.
  unfold count_and_save. unfold bind at 1 2 3. cbn.
  intros Hok. apply bind_ok in Hok as ([] & w1 & Hlist & ->).
  rewrite (proj1 (proj2 (save_snapshot_result env _ w1))).
  f_equal.
  match type of Hlist with ?m ?w0 = _ =>
    assert (keeps disk m) as Hk by apply send_listing_keeps, send_telegram_keeps_disk;
    specialize (Hk w0); rewrite Hlist in Hk; exact Hk
  end.
Qed.

(** X18. A cycle that succeeds ends by saving the map of the holders it
    acquired, stamped with the clock: after it the file is what
    [save_snapshot] leaves of that document, the whole document when no
    fault occurs. *)
Theorem successful_cycle_saves_acquired cfg env w :
  is_ok (cycle cfg env w).1 = true →
  ∃ holders new_map,
    (acquire cfg env w).1 = Ok holders
    ∧ holders_to_map holders = Ok new_map
    ∧ job cfg env w = cycle cfg env w
    ∧ disk (job cfg env w).2
      = saved env (mkSnapshot (Some (clock env)) (Some new_map)) (disk w).
Proof.
  intros Hok.
  assert (job cfg env w = cycle cfg env w) as Hjob.
  { unfold job, try_except. by destruct (cycle cfg env w) as [[|] ?]. }
  rewrite Hjob. unfold cycle in *.
  pose proof (acquire_keeps_disk cfg env w) as Hd0.
  apply bind_ok in Hok as Hacq. destruct Hacq as (holders & w1 & Hacq & Heq).
  rewrite Heq in *. rewrite Hacq in *. cbn in Hd0. clear Heq.
  rewrite report_and_save_steps in *.
  apply bind_ok in Hok as Hmap. destruct Hmap as (new_map & w1' & Hmap & Heq).
  rewrite Heq in *. clear Heq. unfold lift in Hmap. injection Hmap as Hmap <-.
  pose proof (load_snapshot_keeps_disk env w1) as Hd1.
  apply bind_ok in Hok as Hload. destruct Hload as (old & w2 & Hload & Heq).
  rewrite Heq in *. rewrite Hload in *. cbn in Hd1. clear Heq.
  pose proof (report_changes_keeps_disk env (default ∅ (holders_map old)) new_map w2) as Hd2.
  apply bind_ok in Hok as Hrep. destruct Hrep as ([] & w3 & Hrep & Heq).
  rewrite Heq in *. rewrite Hrep in *. cbn in Hd2. clear Heq.
  exists holders, new_map. split_and!; [done | done | done |].
  rewrite count_and_save_disk by done. congruence.
Qed.

End MoreJob.

Section MoreCounter.
Context `{PyFloat}.

Lemma count_and_save_state cfg env holders new_map w :
  state (count_and_save cfg env holders new_map w).2
  = <["polls_done" := polls_done_of w + 1]> (state w).
Proof.
  unfold count_and_save. unfold bind at 1 2 3. cbn.
  match goal with |- state (bind ?m ?k ?w0).2 = _ =>
    assert (keeps state (bind m k)) as Hk
  end.
  { apply keeps_bind; [apply send_listing_keeps, send_telegram_keeps_state | intros _].
    intros w1. apply save_snapshot_result. }
  by rewrite Hk.
Qed.

Lemma cycle_state_of cfg env w r w' :
  cycle cfg env w = (r, w') →
  (state w' = state w ∨ state w' = <["polls_done" := polls_done_of w + 1]> (state w))
  ∧ (is_ok r = true → state w' = <["polls_done" := polls_done_of w + 1]> (state w)).
Proof.
  intros Hc. unfold cycle, bind in Hc.
  pose proof (acquire_keeps_state cfg env w) as Hs0.
  destruct (acquire cfg env w) as [[holders|e] w1]; cbn in Hs0;
    [|injection Hc as <- <-; by split; [left|]].
  rewrite report_and_save_steps in Hc. unfold bind at 1, lift in Hc.
  destruct (holders_to_map holders) as [new_map|];
    [|injection Hc as <- <-; by split; [left|]].
  unfold bind at 1 in Hc.
  pose proof (load_snapshot_keeps state env ltac:(done) w1) as Hs1.
  destruct (load_snapshot env w1) as [[old|] w2]; cbn in Hs1;
    [|injection Hc as <- <-; split; [left|]; [congruence|done]].
  unfold bind at 1 in Hc.
  pose proof (report_changes_keeps_state env (default ∅ (holders_map old)) new_map w2) as Hs2.
  destruct (report_changes env _ new_map w2) as [[[]|] w3]; cbn in Hs2;
    [|injection Hc as <- <-; split; [left|]; [congruence|done]].
  pose proof (count_and_save_state cfg env holders new_map w3) as Hs3.
  rewrite Hc in Hs3. cbn in Hs3. rewrite Hs3. unfold polls_done_of.
  replace (state w3) with (state w) by congruence. split; [by right | done].
Qed.

Lemma cycle_state cfg env w :
  (state (cycle cfg env w).2 = state w
   ∨ state (cycle cfg env w).2 = <["polls_done" := polls_done_of w + 1]> (state w))
  ∧ (is_ok (cycle cfg env w).1 = true →
     state (cycle cfg env w).2 = <["polls_done" := polls_done_of w + 1]> (state w)).
Proof.
  destruct (cycle cfg env w) as [r w'] eqn:Hc. by apply (cycle_state_of cfg env w).
Qed.

(** X19. One run of [job] moves the cycle counter by one step at most, and
    touches no other key of the state: afterwards the counter is what it
    was or one more, and it is one more whenever the body of the [try]
    returned. *)
Theorem job_counter_step cfg env w :
  let w' := (job cfg env w).2 in
  (polls_done_of w' = polls_done_of w ∨ polls_done_of w' = (polls_done_of w + 1)%Z)
  ∧ (is_ok (cycle cfg env w).1 = true → polls_done_of w' = (polls_done_of w + 1)%Z)
  ∧ (∀ k, k ≠ "polls_done" → state w' !! k = state w !! k).
Proof.
  cbn zeta. destruct (cycle_state cfg env w) as [Hstep Hok].
  assert (state (job cfg env w).2 = state (cycle cfg env w).2) as Hjob.
  { unfold job, try_except. destruct (cycle cfg env w) as [[[]|e] w1]; [done|].
    apply (keeps_bind state); [apply log_keeps_state|].
    intros _. apply send_telegram_keeps_state. }
  assert (∀ s : gmap string Z,
            default 0 (<["polls_done" := polls_done_of w + 1]> s !! "polls_done")
            = (polls_done_of w + 1)%Z) as Hnew
    by (intros s; by rewrite lookup_insert_eq).
  set (n := polls_done_of w) in *. unfold polls_done_of. rewrite !Hjob. split_and!.
  - destruct Hstep as [-> | ->]; [by left | right; apply Hnew].
  - intros Hcycle. rewrite (Hok Hcycle). apply Hnew.
  - intros k Hk. destruct Hstep as [-> | ->]; [done | by rewrite lookup_insert_ne].
Qed.

Lemma compare_snapshots_same_ranks (old new : gmap string entry) :
  entry_rank <$> old = entry_rank <$> new →
  compare_snapshots old new = ([], [], []).
Proof.
  intros Hranks. unfold compare_snapshots. cbn zeta.
  assert ((dom old : gset string) = dom new) as ->
    by (by rewrite <- (dom_fmap_L entry_rank old), Hranks, dom_fmap_L).
  assert ((dom new : gset string) ∖ dom new = ∅) as -> by apply difference_diag_L.
  rewrite elements_empty.
  rewrite bind_nil_all; [done|]. intros addr. unfold rank_change_of.
  assert (entry_rank <$> old !! addr = entry_rank <$> new !! addr) as Hl
    by (by rewrite <- !lookup_fmap, Hranks).
  destruct (old !! addr) as [o|], (new !! addr) as [n|]; try done.
  cbn in Hl. injection Hl as Hl. by rewrite decide_False by auto.
Qed.

(** X20. A cycle that finds the ranks it saved last time posts nothing:
    when the holders acquired lower-case to the addresses and ranks of the
    snapshot on file, whatever has become of the balances, and the full
    listing is not due, [job] returns normally and sends no message. *)
Theorem unchanged_ranks_post_nothing cfg env w holders new_map s :
  (acquire cfg env w).1 = Ok holders →
  holders_to_map holders = Ok new_map →
  disk w = Document s →
  read_fault env = None →
  entry_rank <$> default ∅ (holders_map s) = entry_rank <$> new_map →
  listing_due cfg (polls_done_of w + 1) = false →
  (job cfg env w).1 = Ok tt ∧ outbox (job cfg env w).2 = outbox w.
Proof.
  intros Hacq Hmap Hdisk Hread Hranks Hdue.
  pose proof (acquire_keeps_disk cfg env w) as Hd0.
  pose proof (acquire_keeps_state cfg env w) as Hs0.
  pose proof (acquire_keeps_outbox cfg env w) as Ho0.
  assert (cycle cfg env w = report_and_save cfg env holders (acquire cfg env w).2) as Hcycle.
  { unfold cycle, bind. destruct (acquire cfg env w) as [r w1]. cbn in Hacq. by subst r. }
  set (w1 := (acquire cfg env w).2) in *.
  assert (∀ r w', cycle cfg env w = (r, w') → r = Ok tt ∧ outbox w' = outbox w) as Hrun.
  { intros r w' Hc. rewrite Hcycle, report_and_save_steps in Hc.
    unfold bind at 1, lift in Hc. rewrite Hmap in Hc.
    unfold bind at 1, load_snapshot at 1 in Hc. rewrite Hd0, Hdisk, Hread in Hc.
    unfold bind at 1, report_changes in Hc.
    rewrite (compare_snapshots_same_ranks _ _ Hranks) in Hc.
    cbn [nonempty orb log] in Hc.
    unfold count_and_save in Hc. unfold bind at 1 2 3 in Hc.
    cbn [get_polls_done set_polls_done state] in Hc.
    rewrite lookup_insert_eq in Hc. cbn [default] in Hc. fold (polls_done_of w1) in Hc.
    assert (polls_done_of w1 = polls_done_of w) as Hn
      by (unfold polls_done_of; by rewrite Hs0).
    unfold id in Hc. rewrite Hn, Hdue in Hc. unfold bind, ret in Hc.
    match type of Hc with save_snapshot ?e ?sn ?w0 = _ =>
      destruct (save_snapshot_result e sn w0) as (Hr & _ & _ & Ho)
    end.
    rewrite Hc in Hr, Ho. cbn in Hr, Ho. split; [done | congruence]. }
  unfold job, try_except. destruct (cycle cfg env w) as [r w2] eqn:Hc.
  destruct (Hrun r w2 eq_refl) as [-> Hout]. done.
Qed.

End MoreCounter.

Section MoreStore.
Context `{PyFloat}.

(** X21. The snapshot store. [load_snapshot] never raises and never
    touches the file, the state or the posts; with no file it returns the
    empty document and logs nothing. A snapshot saved without fault is the
    document the next fault-free load returns; after a write cut short the
    next load returns the empty document. *)
Theorem snapshot_store_round_trip env env' snap w :
  (∃ s, (load_snapshot env w).1 = Ok s)
  ∧ disk (load_snapshot env w).2 = disk w
  ∧ state (load_snapshot env w).2 = state w
  ∧ outbox (load_snapshot env w).2 = outbox w
  ∧ (disk w = NoFile → load_snapshot env w = (Ok empty_snapshot, w))
  ∧ (write_fault env = None → read_fault env' = None →
     (load_snapshot env' (save_snapshot env snap w).2).1 = Ok snap)
  ∧ (∀ n e, write_fault env = Some (WriteFails n e) →
       (load_snapshot env' (save_snapshot env snap w).2).1 = Ok empty_snapshot).
Proof.
  split_and!.
  - unfold load_snapshot. destruct (disk w); cbn; eauto.
    destruct (read_fault env); cbn; eauto.
  - apply load_snapshot_keeps_disk.
  - by apply load_snapshot_keeps.
  - by apply load_snapshot_keeps.
  - intros Hno. unfold load_snapshot. by rewrite Hno.
  - intros Hw Hr. unfold save_snapshot, load_snapshot. rewrite Hw. cbn. by rewrite Hr.
  - intros n e Hw. unfold save_snapshot, load_snapshot. by rewrite Hw.
Qed.

End MoreStore.

(** * The properties on concrete inputs *)

Module Examples.
Import Demo.
#[local] Existing Instance IntegralFloat.

Example lower_hex : PyStr.lower "0xAbC9" = "0xabc9".
Proof. reflexivity. Qed.

Example replace_eth : PyStr.replace "ETH" "" "1,234.5 ETH" = "1,234.5 ".
Proof. reflexivity. Qed.

Example first_word_of_balance :
  PyStr.first_word
    (PyStr.strip (PyStr.replace "," "" (PyStr.replace "ETH" "" "1,234.5 ETH (x)")))
  = Some "1234.5".
Proof. reflexivity. Qed.

Example contains_rank :
  PyStr.contains "rank" "the rank" = true ∧ PyStr.contains "rank" "ran k" = false.
Proof. split; reflexivity. Qed.

Example fmt_3d_7 : PyStr.fmt_3d 7 = "  7".
Proof. vm_compute. reflexivity. Qed.

Example py_chunks_abcde : PyStr.py_chunks 2 "abcde" = ["ab"; "cd"; "e"].
Proof. reflexivity. Qed.

Example py_len_arrow : PyStr.py_len "a → b" = 5%nat.
Proof. reflexivity. Qed.

Example etherscan_hundred :
  rank <$> value_or [] (fetch_top_from_etherscan (second_post_refused 0) 4) = seqZ 1 100.
Proof. vm_compute. reflexivity. Qed.


(** The first cycle of a run posts the hundred holders as new entrants. *)
Example first_cycle_posts_entrants :
  length (outbox (job no_key (second_post_refused 0) fresh).2) = 1%nat.
Proof. vm_compute. reflexivity. Qed.

(** An outage with no Bitquery key. *)
Lemma job_acquisition_failure_witness :
  disk (job no_key outage fresh).2 = NoFile
  ∧ state (job no_key outage fresh).2 = {["polls_done" := 0]}
  ∧ ∃ reply,
      outbox (job no_key outage fresh).2
      = [("⚠️ <b>eth_top_monitor error</b>" ++ nl ++ "Connection refused", reply)].
Proof.
  apply (job_acquisition_failure_writes_nothing no_key outage fresh ConnectionError
           (mkWorld NoFile {["polls_done" := 0]} []
              [(INFO, "Fetching top holders from Etherscan...");
               (WARNING, "Etherscan fetch failed: Connection refused")])).
  reflexivity.
Defined.

(** C3 on its failing input. A snapshot of the hundred holders is on file.
    Etherscan lists five holders, too few, and Bitquery, the backup, answers
    with three, too few as well, or with none: no adapter has given a
    plausible list, yet the cycle runs to its end and the three holders, or
    none, replace the hundred in the snapshot file. *)
Theorem implausible_backup_overwrites_snapshot :
  let three := [balance_item "0xAa"; balance_item "0xBb"; balance_item "0xCc"] in
  length (value_or [] (fetch_top_from_etherscan (short_backup three) 4)) = 5%nat
  ∧ length (value_or [] (fetch_top_with_bitquery with_key (short_backup three) 100)) = 3%nat
  ∧ fetch_top_with_bitquery with_key (short_backup []) 100 = Ok []
  ∧ (λ saved, (saved.1, length saved.2)) <$> on_disk settled
    = Some (Some 1700000000, 100%nat)
  ∧ is_ok (cycle with_key (short_backup three) settled).1 = true
  ∧ on_disk (job with_key (short_backup three) settled).2
    = Some (Some 1700000600, [("0xaa", 1); ("0xbb", 2); ("0xcc", 3)])
  ∧ is_ok (cycle with_key (short_backup []) settled).1 = true
  ∧ on_disk (job with_key (short_backup []) settled).2 = Some (Some 1700000600, []).
Proof. vm_compute. split_and!; reflexivity. Qed.

(** C4 on its failing input: Etherscan lists five holders, which the check
    refuses; Bitquery answers with three, which [job] takes as they come,
    reports as the new top list and writes to the snapshot file. *)
Theorem backup_result_below_threshold_accepted :
  length (value_or [] (fetch_top_from_etherscan five_then_three 4)) = 5%nat
  ∧ is_ok (acquire with_key five_then_three fresh).1 = true
  ∧ shown <$> value_or [] (acquire with_key five_then_three fresh).1
    = [(1, Some "0xAa", "7.0 ETH"); (2, Some "0xBb", "7.0 ETH"); (3, Some "0xCc", "7.0 ETH")]
  ∧ (job with_key five_then_three fresh).1 = Ok tt
  ∧ on_disk (job with_key five_then_three fresh).2
    = Some (Some 1700000000, [("0xaa", 1); ("0xbb", 2); ("0xcc", 3)]).
Proof. vm_compute. split_and!; reflexivity. Qed.


(** C6 on a refused connection. *)
Lemma send_telegram_post_raises_witness :
  let '(r, w') := send_telegram (second_post_refused 0) "hello"
                    (mkWorld NoFile ∅ [("first", TgResponse 200 "{}")] []) in
  r = Raise ConnectionError ∧ logs w' = [].
Proof.
  apply (send_telegram_post_raises (second_post_refused 0) "hello"
           (mkWorld NoFile ∅ [("first", TgResponse 200 "{}")] []) ConnectionError).
  reflexivity.
Defined.

(** When Telegram cannot be reached at all, the exception leaves [job]. *)
Example job_raises_when_telegram_is_down :
  (job no_key (mkEnv etherscan_down (BqRaise ConnectionError) telegram_down None None 0)
     fresh).1 = Raise ConnectionError.
Proof. vm_compute. reflexivity. Qed.

(** C7, as stated, fails: Bitquery answers with 101 balances and all 101
    are returned; Etherscan serves a moved page and the holders returned
    have the ranks 1, 2, 1. *)
Lemma acquisition_neither_bounded_nor_sorted :
  (is_ok (fetch_top_with_bitquery with_key bitquery_101 100) = true
   ∧ length (value_or [] (fetch_top_with_bitquery with_key bitquery_101 100)) = 101%nat)
  ∧ (is_ok (fetch_top_from_etherscan moving 4) = true
     ∧ shown <$> value_or [] (fetch_top_from_etherscan moving 4)
       = [(1, Some "0xa", "9 ETH"); (2, Some "0xb", "8 ETH"); (1, Some "0xc", "10 ETH")]
     ∧ ¬ ascending rank (value_or [] (fetch_top_from_etherscan moving 4))).
Proof.
  split_and!; try (vm_compute; reflexivity).
  intros Hs.
  assert (rank <$> value_or [] (fetch_top_from_etherscan moving 4) = [1; 2; 1]) as Hr
    by (vm_compute; reflexivity).
  destruct (value_or [] (fetch_top_from_etherscan moving 4)) as [|a [|b [|c l]]];
    try discriminate.
  injection Hr as Ha Hb Hc _.
  apply StronglySorted_inv in Hs as [Hs _].
  apply StronglySorted_inv in Hs as [_ Hf].
  apply Forall_cons in Hf as [Hf _]. lia.
Qed.

(** C7 (amended) on the same two answers. *)
Lemma acquisition_shape_witness :
  ((length (value_or [] (fetch_top_from_etherscan moving 4)) ≤ 100)%nat
   ∧ NoDup (address <$> value_or [] (fetch_top_from_etherscan moving 4)))
  ∧ ascending rank (value_or [] (fetch_top_with_bitquery with_key bitquery_101 100)).
Proof.
  assert (is_ok (fetch_top_from_etherscan moving 4) = true) as Hok1
    by (vm_compute; reflexivity).
  assert (is_ok (fetch_top_with_bitquery with_key bitquery_101 100) = true) as Hok2
    by (vm_compute; reflexivity).
  destruct (acquisition_shape (H:=IntegralFloat)) as [Hpage Hquery]. split.
  - destruct (Hpage moving 4 _ (ok_value_or [] _ Hok1)) as (Hlen & Hnd & _).
    by split.
  - by destruct (Hquery with_key bitquery_101 100 _ (ok_value_or [] _ Hok2))
      as (_ & Hasc & _).
Defined.

Lemma abc_rank_changes :
  sorted_rank_changes (compare_snapshots abc_old abc_new).1.1 = [("A", 1, 2); ("B", 2, 1)].
Proof. vm_compute. reflexivity. Qed.

(** C8, as stated, fails on its own scenario: B makes the only upward jump
    and is listed last, after A, which the report marks with a down arrow. *)
Lemma upward_jump_listed_last :
  sorted_rank_changes (compare_snapshots abc_old abc_new).1.1 = [("A", 1, 2); ("B", 2, 1)]
  ∧ rank_change_line <$> sorted_rank_changes (compare_snapshots abc_old abc_new).1.1
    = ["  2. <code>A</code> ↓ (1 → 2)"; "  1. <code>B</code> ↑ (2 → 1)"]
  ∧ ¬ largest_upward_jumps_first
        (sorted_rank_changes (compare_snapshots abc_old abc_new).1.1).
Proof.
  rewrite abc_rank_changes. split_and!; [done | vm_compute; reflexivity |].
  intros Hs. apply StronglySorted_inv in Hs as [_ Hf].
  apply Forall_cons in Hf as [Hf _]. unfold rank_change_key in Hf. cbn in Hf. lia.
Qed.

(** C8 (amended) on the scenario. *)
Lemma rank_changes_order_witness :
  sorted_rank_changes [("B", 2, 1); ("A", 1, 2)] !! 0%nat = Some ("A", 1, 2)
  ∧ sorted_rank_changes [("B", 2, 1); ("A", 1, 2)] !! 1%nat = Some ("B", 2, 1)
  ∧ (0 < 1)%nat.
Proof.
  destruct (rank_changes_order (H:=IntegralFloat)) as [Horder _].
  destruct (Horder [("B", 2, 1); ("A", 1, 2)]) as (_ & _ & _ & Hlt & _).
  split_and!; [reflexivity | reflexivity |].
  apply (Hlt 0%nat 1%nat "A" 1 2 "B" 2 1); [reflexivity | reflexivity | lia | lia].
Defined.



(** C10 on its failing input, the listing due every second cycle. The
    first cycle succeeds and writes the snapshot. In the second the post of
    the listing meets a refused connection: the cycle fails and writes no
    snapshot, yet the counter has gone from 1 to 2. The third cycle
    succeeds, the second to do so; the counter goes to 3 and no listing is
    posted. *)
Theorem counter_counts_failed_listing_cycle :
  let w1 := (job every_second (second_post_refused 1700000000) fresh).2 in
  let w2 := (job every_second (second_post_refused 1700000600) w1).2 in
  let w3 := (job every_second (second_post_refused 1700001200) w2).2 in
  is_ok (cycle every_second (second_post_refused 1700000000) fresh).1 = true
  ∧ state w1 !! "polls_done" = Some 1
  ∧ fst <$> on_disk w1 = Some (Some 1700000000)
  ∧ (cycle every_second (second_post_refused 1700000600) w1).1 = Raise ConnectionError
  ∧ state w2 !! "polls_done" = Some 2
  ∧ fst <$> on_disk w2 = Some (Some 1700000000)
  ∧ is_ok (cycle every_second (second_post_refused 1700001200) w2).1 = true
  ∧ state w3 !! "polls_done" = Some 3
  ∧ fst <$> on_disk w3 = Some (Some 1700001200)
  ∧ outbox w3 = outbox w2
  ∧ state (main every_second (second_post_refused 1700000000)
             [second_post_refused 1700000600; second_post_refused 1700001200]
             (mkWorld NoFile ∅ [] [])).2 !! "polls_done" = Some 3.
Proof. vm_compute. split_and!; reflexivity. Qed.

End Examples.

(** * The further properties on concrete inputs *)

Module MoreExamples.
Import Demo.
#[local] Existing Instance IntegralFloat.

(** X2 on a holder whose balance went from 5 to 6. *)
Lemma compare_snapshots_ranks_only_witness :
  let '(rank_changes, new_entries, removed) := compare_snapshots (richer 5) (richer 5) in
  let '(rank_changes', new_entries', removed') := compare_snapshots (richer 5) (richer 6) in
  rank_changes ≡ₚ rank_changes' ∧ new_entries ≡ₚ new_entries' ∧ removed ≡ₚ removed'.
Proof.
  apply compare_snapshots_ranks_only; unfold richer; by rewrite !map_fmap_singleton.
Defined.


(** X6 on a text of five characters cut in pieces of two. *)
Lemma py_chunks_spec_witness :
  PyStr.concat_chars (PyStr.py_chunks 2 "a→b→c") = "a→b→c"
  ∧ Forall (λ ch, (PyStr.py_len ch ≤ 2)%nat ∧ ch ≠ EmptyString)
      (PyStr.py_chunks 2 "a→b→c").
Proof. apply py_chunks_spec. lia. Defined.

(** X8 on a page of two rows in rank order. *)
Lemma parse_in_rank_order_witness :
  parse_etherscan_accounts_page
    (accounts_page [row "1" "0xa" "9 ETH"; row "2" "0xb" "8 ETH"])
  = Ok (omap parse_row [row "1" "0xa" "9 ETH"; row "2" "0xb" "8 ETH"]).
Proof.
  apply (parse_in_rank_order
           (accounts_page [row "1" "0xa" "9 ETH"; row "2" "0xb" "8 ETH"])
           (accounts_table [row "1" "0xa" "9 ETH"; row "2" "0xb" "8 ETH"])).
  - reflexivity.
  - apply ascendingb_true. vm_compute. reflexivity.
  - apply Nat.leb_le. vm_compute. reflexivity.
Defined.

(** X9 when the guarded requests meet a refused connection and the last
    one times out. *)
Lemma fetch_top_from_etherscan_failures_witness :
  fetch_top_from_etherscan timing_out 4 = Raise ReadTimeout.
Proof.
  destruct (fetch_top_from_etherscan_failures timing_out 4) as (_ & Hraise & _).
  apply Hraise; [lia | | reflexivity].
  intros url Hin. exists ConnectionError.
  repeat (apply elem_of_cons in Hin as [-> | Hin]; [vm_compute; reflexivity|]).
  by apply elem_of_nil in Hin.
Defined.

(** X10 when every request gets the same page. *)
Lemma fetch_same_page_again_witness :
  fetch_top_from_etherscan two_cases 4 = fetch_top_from_etherscan two_cases 1.
Proof.
  destruct (fetch_same_page_again two_cases
              (accounts_page [row "1" "0xAB" "9 ETH"; row "2" "0xab" "8 ETH"]) 4)
    as [_ Hsame].
  apply Hsame; [reflexivity | lia].
Defined.

Lemma listing_fetched :
  fetch_top_from_etherscan (second_post_refused 0) 4 = Ok listing.
Proof. apply ok_value_or. vm_compute. reflexivity. Qed.

Lemma listing_mapped : holders_to_map listing = Ok listed_map.
Proof. apply ok_value_or. vm_compute. reflexivity. Qed.

(** X11 on the hundred holders of the listing. *)
Lemma etherscan_holders_map_witness :
  Forall (λ h, (0 ≤ rank h)%Z ∧ is_Some (address h) ∧ label h = None) listing
  ∧ is_ok (holders_to_map listing) = true.
Proof. exact (etherscan_holders_map (second_post_refused 0) 4 listing listing_fetched). Defined.

(** X12 without a key. *)
Lemma fetch_top_with_bitquery_failures_witness :
  fetch_top_with_bitquery no_key bitquery_101 100
  = Raise (Exn ValueError "No BITQUERY_API_KEY configured").
Proof.
  destruct (fetch_top_with_bitquery_failures no_key bitquery_101 100) as [Hnokey _].
  by apply Hnokey.
Defined.

(** X13 on the hundred holders of the listing. *)
Lemma holders_to_map_spec_witness :
  (size listed_map ≤ length listing)%nat
  ∧ ∀ k, listed_map !! k
         = holder_entry
           <$> last (filter (λ h, PyStr.lower <$> address h = Some k) listing).
Proof.
  destruct (holders_to_map_spec listing) as [_ Hmap].
  exact (Hmap listed_map listing_mapped).
Defined.


(** X16 when Telegram answers every post with a server error. *)
Lemma job_returns_when_telegram_answers_witness :
  (job no_key telegram_error fresh).1 = Ok tt.
Proof.
  apply job_returns_when_telegram_answers. intros n. by exists 502, "Bad Gateway".
Defined.

(** X17 when the post of the listing meets a refused connection. *)
Lemma failed_cycle_writes_nothing_witness :
  disk (job every_second (second_post_refused 0) listing_owed).2 = NoFile.
Proof.
  apply (failed_cycle_writes_nothing every_second (second_post_refused 0) listing_owed).
  vm_compute. reflexivity.
Defined.

(** X18 on the first cycle of a run. *)
Lemma successful_cycle_saves_acquired_witness :
  ∃ holders new_map,
    (acquire no_key (second_post_refused 0) fresh).1 = Ok holders
    ∧ holders_to_map holders = Ok new_map
    ∧ job no_key (second_post_refused 0) fresh = cycle no_key (second_post_refused 0) fresh
    ∧ disk (job no_key (second_post_refused 0) fresh).2
      = Document (mkSnapshot (Some 0) (Some new_map)).
Proof.
  apply (successful_cycle_saves_acquired no_key (second_post_refused 0) fresh).
  vm_compute. reflexivity.
Defined.

(** X19 on the first cycle of a run. *)
Lemma job_counter_step_witness :
  polls_done_of (job no_key (second_post_refused 0) fresh).2 = (polls_done_of fresh + 1)%Z.
Proof.
  destruct (job_counter_step no_key (second_post_refused 0) fresh) as (_ & Hok & _).
  apply Hok. vm_compute. reflexivity.
Defined.

(** X20 on the listing saved with other balances. *)
Lemma unchanged_ranks_post_nothing_witness :
  (job no_key (second_post_refused 0) settled).1 = Ok tt
  ∧ outbox (job no_key (second_post_refused 0) settled).2 = [].
Proof.
  apply (unchanged_ranks_post_nothing no_key (second_post_refused 0) settled
           listing listed_map settled_snapshot).
  - rewrite acquire_result, listing_fetched. cbn zeta.
    assert (negb (nonempty listing) || (length listing <? 10)%nat = false) as ->
      by (vm_compute; reflexivity).
    reflexivity.
  - apply listing_mapped.
  - reflexivity.
  - reflexivity.
  - unfold settled_snapshot. cbn [holders_map default from_option id].
    rewrite <- map_fmap_compose.
    apply map_fmap_ext. done.
  - vm_compute. reflexivity.
Defined.

(** X21 on a snapshot saved and read back. *)
Lemma snapshot_store_round_trip_witness :
  (load_snapshot outage (save_snapshot outage new_snapshot with_old_snapshot).2).1
  = Ok new_snapshot.
Proof.
  destruct (snapshot_store_round_trip outage outage new_snapshot with_old_snapshot)
    as (_ & _ & _ & _ & _ & Hround & _).
  by apply Hround.
Defined.

End MoreExamples.
